(** * otagent: the message-routing core of [Agent.cpp]

    A shallow embedding of [opentxs::agent::Agent] (src/src/Agent.cpp): the
    two association tables, the worker (backend) handler, the frontend
    handler, the push bridge, the configuration store and the ZAP
    authentication handler, followed by the properties of the design
    document that are checked against them.

    Each handler runs serially on its socket; the embedding is of one handler
    invocation at a time, so mutexes ([Lock]) do not appear.  A handler that
    hits [OT_ASSERT] or lets an exception escape ends in [Aborted], which
    keeps the agent's memory as it was at that point.  The constructor and
    the creation of the worker sockets are start-up code and are not
    embedded; logging is left out. *)

From Stdlib Require Import ZArith String Ascii List DecimalString DecimalZ.
From Stdlib Require DecimalNat.
From stdpp Require Import gmap strings list fin_maps.

Local Open Scope string_scope.
Local Open Scope list_scope.
Local Open Scope Z_scope.
Local Open Scope stdpp_scope.

(** ** Outcomes of fallible code *)

(** What can stop a handler: a failed [OT_ASSERT], [std::out_of_range] from
    [at()], the two exceptions of [boost::property_tree], and an index past
    the end of a protobuf repeated field. *)
Inductive error : Type :=
  | AssertionFailure
  | out_of_range
  | ptree_bad_path
  | ptree_bad_data
  | repeated_field_index.

(** Pure fallible code. *)
Inductive result (A : Type) : Type :=
  | Ok (a : A)
  | Err (e : error).
Arguments Ok {A} a.
Arguments Err {A} e.

Definition result_bind {A B} (r : result A) (k : A → result B) : result B :=
  match r with
  | Ok a => k a
  | Err e => Err e
  end.

(** [OT_ASSERT(b)] *)
Definition OT_ASSERT (b : bool) : result unit :=
  if b then Ok tt else Err AssertionFailure.

(** ** Machine integers *)

Definition int64_wrap (z : Z) : Z := (z + 2 ^ 63) mod 2 ^ 64 - 2 ^ 63.
Definition int32_wrap (z : Z) : Z := (z + 2 ^ 31) mod 2 ^ 32 - 2 ^ 31.
Definition INT64_MAX : Z := 2 ^ 63 - 1.
Definition INT64_MIN : Z := - 2 ^ 63.
Definition UINT32_MAX : Z := 2 ^ 32 - 1.

(** ** Byte strings *)

(** [opentxs::Data], [std::string] and a ZeroMQ frame are all byte strings. *)
Abbreviation Data := string (only parsing).

Definition empty (s : string) : bool := bool_decide (s = "").

(** ** The multipart message of the transport library *)

(** Modelled from the spec: [zmq::Message], the message type of the
    transport library, which is not under src/.  A message is a flat list
    of frames; the first empty frame is the delimiter between the routing
    header and the body, so that a push has header [[ConnectionId]] and body
    [["PUSH"; ...]].  [instantiate_push] relies on exactly this: it adds the
    connection, an empty frame and ["PUSH"], and then asserts that the
    header and the body hold one frame each. *)
Module zmq.

Abbreviation Frame := string (only parsing).
Abbreviation Message := (list string) (only parsing).

Definition Factory : Message := [].

(** [AddFrame(x)] appends at the end; [AddFrame()] adds an empty frame. *)
Definition AddFrame (x : Frame) (m : Message) : Message := m ++ [x].

Definition hasDivider (m : Message) : bool :=
  existsb empty m.

Fixpoint findDivider (m : Message) : nat :=
  match m with
  | [] => 0%nat
  | f :: m' => if empty f then 0%nat else S (findDivider m')
  end.

Definition Header (m : Message) : list Frame :=
  if hasDivider m then take (findDivider m) m else [].

Definition Body (m : Message) : list Frame :=
  if hasDivider m then drop (S (findDivider m)) m else m.

(** [FrameSection::at(i)], [Header_at(i)], [Body_at(i)] *)
Definition at_ (l : list Frame) (i : nat) : result Frame :=
  match l !! i with
  | Some f => Ok f
  | None => Err out_of_range
  end.

(** [ReplyFactory(request)]: the request's header and a delimiter. *)
Definition ReplyFactory (request : Message) : Message :=
  if bool_decide (0 < length (Header request))%nat
  then Header request ++ [""]
  else [].

End zmq.

(** ** The association tables *)

(** [TaskData] is the pair (connection, nym). *)
Abbreviation TaskData := (Data * string)%type (only parsing).

(** [std::map::emplace]: the element is inserted only when the key is not
    in the map yet. *)
Definition emplace {V : Type} (k : string) (v : V) (m : gmap string V)
  : gmap string V :=
  match m !! k with
  | Some _ => m
  | None => <[k := v]> m
  end.

(** ** Protocol messages

    The RPC messages come from the engine's protobuf definitions, which are
    not under src/; only the fields that [Agent.cpp] reads or writes are
    kept.  Of the response codes the agent tests for [RPCRESPONSE_SUCCESS]
    and [RPCRESPONSE_QUEUED]. *)

(** The command kinds, as the [switch] of [backend_handler] lists them. *)
Inductive RPCCommandType : Type :=
  | RPCCOMMAND_ERROR
  | RPCCOMMAND_ADDCLIENTSESSION
  | RPCCOMMAND_ADDSERVERSESSION
  | RPCCOMMAND_LISTCLIENTSESSIONS
  | RPCCOMMAND_LISTSERVERSESSIONS
  | RPCCOMMAND_IMPORTHDSEED
  | RPCCOMMAND_LISTHDSEEDS
  | RPCCOMMAND_GETHDSEED
  | RPCCOMMAND_CREATENYM
  | RPCCOMMAND_LISTNYMS
  | RPCCOMMAND_GETNYM
  | RPCCOMMAND_ADDCLAIM
  | RPCCOMMAND_DELETECLAIM
  | RPCCOMMAND_IMPORTSERVERCONTRACT
  | RPCCOMMAND_LISTSERVERCONTRACTS
  | RPCCOMMAND_REGISTERNYM
  | RPCCOMMAND_CREATEUNITDEFINITION
  | RPCCOMMAND_LISTUNITDEFINITIONS
  | RPCCOMMAND_ISSUEUNITDEFINITION
  | RPCCOMMAND_CREATEACCOUNT
  | RPCCOMMAND_LISTACCOUNTS
  | RPCCOMMAND_GETACCOUNTBALANCE
  | RPCCOMMAND_GETACCOUNTACTIVITY
  | RPCCOMMAND_SENDPAYMENT
  | RPCCOMMAND_MOVEFUNDS
  | RPCCOMMAND_ADDCONTACT
  | RPCCOMMAND_LISTCONTACTS
  | RPCCOMMAND_GETCONTACT
  | RPCCOMMAND_ADDCONTACTCLAIM
  | RPCCOMMAND_DELETECONTACTCLAIM
  | RPCCOMMAND_VERIFYCLAIM
  | RPCCOMMAND_ACCEPTVERIFICATION
  | RPCCOMMAND_SENDCONTACTMESSAGE
  | RPCCOMMAND_GETCONTACTACTIVITY
  | RPCCOMMAND_GETSERVERCONTRACT
  | RPCCOMMAND_GETPENDINGPAYMENTS
  | RPCCOMMAND_ACCEPTPENDINGPAYMENTS
  | RPCCOMMAND_GETCOMPATIBLEACCOUNTS
  | RPCCOMMAND_CREATECOMPATIBLEACCOUNT
  | RPCCOMMAND_GETWORKFLOW
  | RPCCOMMAND_GETSERVERPASSWORD
  | RPCCOMMAND_GETADMINNYM
  | RPCCOMMAND_GETUNITDEFINITION
  | RPCCOMMAND_GETTRANSACTIONDATA
  | RPCCOMMAND_LOOKUPACCOUNTID
  | RPCCOMMAND_RENAMEACCOUNT.

Global Instance RPCCommandType_eq_dec : EqDecision RPCCommandType.
Proof. solve_decision. Defined.

Inductive RPCResponseCode : Type :=
  | RPCRESPONSE_INVALID
  | RPCRESPONSE_SUCCESS
  | RPCRESPONSE_QUEUED
  | RPCRESPONSE_ERROR.

Global Instance RPCResponseCode_eq_dec : EqDecision RPCResponseCode.
Proof. solve_decision. Defined.

Inductive RPCPushType : Type :=
  | RPCPUSH_ERROR
  | RPCPUSH_ACCOUNT
  | RPCPUSH_CONTACT
  | RPCPUSH_TASK.

Module SendPayment.
Record t : Type := { sourceaccount : string }.
End SendPayment.

Module AcceptPendingPayment.
Record t : Type := { destinationaccount : string }.
End AcceptPendingPayment.

Module RPCCommand.
Record t : Type := {
  type : RPCCommandType;
  session : Z;                         (* uint32 *)
  owner : string;
  associatenym : list string;
  sendpayment : SendPayment.t;
  acceptpendingpayment : list AcceptPendingPayment.t
}.
End RPCCommand.

Module RPCStatus.
Record t : Type := { code : RPCResponseCode }.
End RPCStatus.

Module RPCTask.
Record t : Type := { id : string }.
End RPCTask.

Module RPCResponse.
Record t : Type := {
  type : RPCCommandType;
  status : list RPCStatus.t;
  identifier : list string;
  task : list RPCTask.t
}.
End RPCResponse.

Module TaskComplete.
Record t : Type := { version : Z; id : string; result : bool }.
End TaskComplete.

Module RPCPush.
Record t : Type := {
  version : Z;
  type : RPCPushType;
  id : string;
  taskcomplete : TaskComplete.t
}.
End RPCPush.

Definition RPCPUSH_VERSION : Z := 2.
Definition TASKCOMPLETE_VERSION : Z := 1.

Definition CONFIG_SECTION : string := "otagent".
Definition CONFIG_CLIENTS : string := "clients".
Definition CONFIG_SERVERS : string := "servers".

(** ** ZAP requests and replies *)

(** Modelled from the spec: [zap::Request] and [zap::Reply] of the transport
    library, which are not under src/; a request offers a mechanism and a
    list of credential frames, a reply carries a status code and a text. *)
Module zap.
Inductive Mechanism : Type := Null | Plain | Curve | Unknown.

Global Instance Mechanism_eq_dec : EqDecision Mechanism.
Proof. solve_decision. Defined.

Inductive Status : Type :=
  | Success | TemporaryError | AuthFailure | SystemError | StatusUnknown.

Record Request : Type := {
  Mechanism_ : Mechanism;
  Credentials : list zmq.Frame
}.

(** A reply keeps the request it answers, a status code and a text. *)
Record Reply : Type := {
  request : Request;
  Code : Status;
  StatusText : string
}.

(** [Reply::Factory(request)] *)
Definition Factory (r : Request) : Reply :=
  {| request := r; Code := StatusUnknown; StatusText := "" |}.

Definition SetCode (c : Status) (r : Reply) : Reply :=
  {| request := request r; Code := c; StatusText := StatusText r |}.

Definition SetStatus (s : string) (r : Reply) : Reply :=
  {| request := request r; Code := Code r; StatusText := s |}.
End zap.

(** ** The property tree of the configuration *)

(** Modelled from the spec: [boost::property_tree::ptree], the INI-style
    configuration tree, which is not under src/.  A node holds a string and
    an ordered list of named children; names may repeat, and a lookup takes
    the first match.  A path is cut at each ['.']. *)
Module pt.

#[warnings="-register-all"] Inductive ptree : Type :=
  | Node (data : string) (children : list (string * ptree)).

Definition data (t : ptree) : string :=
  match t with Node d _ => d end.

Definition children (t : ptree) : list (string * ptree) :=
  match t with Node _ cs => cs end.

Fixpoint find (key : string) (cs : list (string * ptree)) : option ptree :=
  match cs with
  | [] => None
  | (k, c) :: cs' => if bool_decide (k = key) then Some c else find key cs'
  end.

(** The first child named [key] is replaced by its image under [f]. *)
Fixpoint update_first (key : string) (f : ptree → ptree)
    (cs : list (string * ptree)) : list (string * ptree) :=
  match cs with
  | [] => []
  | (k, c) :: cs' =>
      if bool_decide (k = key) then (k, f c) :: cs'
      else (k, c) :: update_first key f cs'
  end.

(** [path::reduce] applied until the path is used up: the fragments
    between the separators; a separator at the very end adds nothing. *)
Fixpoint reduce (acc : string) (s : string) : list string :=
  match s with
  | EmptyString => [acc]
  | String c s' =>
      if bool_decide (c = "."%char) then
        acc :: match s' with
               | EmptyString => []
               | _ => reduce "" s'
               end
      else reduce (acc +:+ String c "") s'
  end.

Definition fragments (path : string) : list string :=
  match path with
  | EmptyString => []
  | _ => reduce "" path
  end.

Fixpoint walk_path (p : list string) (t : ptree) : option ptree :=
  match p with
  | [] => Some t
  | k :: p' =>
      match find k (children t) with
      | Some c => walk_path p' c
      | None => None
      end
  end.

(** [get_child(path)] throws [ptree_bad_path] when the path leads
    nowhere. *)
Definition get_child (path : string) (t : ptree) : result ptree :=
  match walk_path (fragments path) t with
  | Some c => Ok c
  | None => Err ptree_bad_path
  end.

(** [get_child] returns a reference into the tree; [write_at p f t] is
    the tree after the node that [walk_path p] reaches has been changed
    by [f] through that reference. *)
Fixpoint write_at (p : list string) (f : ptree → ptree) (t : ptree)
  : ptree :=
  match p with
  | [] => f t
  | k :: p' => Node (data t) (update_first k (write_at p' f) (children t))
  end.

(** The library reads a value out of a node's text with a string stream
    ([stream_translator::get_value]): [iss >> e], then [iss >> std::ws]
    unless the end was reached, and the value is taken only if the stream
    has not failed and nothing is left to read.  For [std::int64_t] the
    extraction skips leading white space, takes one optional sign, then
    decimal digits, at least one, and fails when the number does not fit
    64 bits. *)

(** [std::isspace] in the classic locale: the space and the characters
    9 to 13 (tab, line feed, vertical tab, form feed, carriage return). *)
Definition isspace (c : ascii) : bool :=
  let n := nat_of_ascii c in
  Nat.eqb n 32 || (Nat.leb 9 n && Nat.leb n 13).

Definition isdigit (c : ascii) : bool :=
  let n := nat_of_ascii c in
  Nat.leb 48 n && Nat.leb n 57.

(** [iss >> std::ws], and the white space that [operator>>] skips first. *)
Fixpoint skip_ws (s : string) : string :=
  match s with
  | String c s' => if isspace c then skip_ws s' else s
  | EmptyString => EmptyString
  end.

(** The optional sign: whether it was a minus, and the text after it. *)
Definition read_sign (s : string) : bool * string :=
  match s with
  | String c s' =>
      if Ascii.eqb c "-" then (true, s')
      else if Ascii.eqb c "+" then (false, s')
      else (false, s)
  | EmptyString => (false, s)
  end.

(** The longest run of digits at the front, and the text after it. *)
Fixpoint read_digits (s : string) : string * string :=
  match s with
  | String c s' =>
      if isdigit c then (String c (read_digits s').1, (read_digits s').2)
      else (EmptyString, s)
  | EmptyString => (EmptyString, EmptyString)
  end.

(** The whole read: [None] stands for the translator's empty optional. *)
Definition read_int64 (s : string) : option Z :=
  let signed := read_sign (skip_ws s) in
  let number := read_digits signed.2 in
  match NilZero.uint_of_string number.1 with
  | Some u =>
      let z := Z.of_int (if signed.1 then Decimal.Neg u else Decimal.Pos u) in
      if bool_decide (INT64_MIN ≤ z ≤ INT64_MAX) then
        match skip_ws number.2 with
        | EmptyString => Some z
        | String _ _ => None
        end
      else None
  | None => None
  end.

(** [get_value<std::int64_t>()]: the node's text read as above,
    [ptree_bad_data] when the translator gives nothing. *)
Definition get_value_int64 (t : ptree) : result Z :=
  match read_int64 (data t) with
  | Some z => Ok z
  | None => Err ptree_bad_data
  end.

(** [put_value<std::int64_t>(z)]: the node's text becomes the decimal
    form of [z]; its children stay. *)
Definition put_value_int64 (z : Z) (t : ptree) : ptree :=
  Node (NilZero.string_of_int (Z.to_int z)) (children t).

End pt.

(** ** External collaborators *)

(** The engine ([api::Native]) is used through a few calls only, which are
    parameters of the embedding.  A handler calls [RPC] once, so the
    engine's answer is taken as a function of the command; the account
    lookup is taken to answer for every client index and account. *)
Record Native : Type := {
  (** [ot_.RPC(command)] *)
  RPC : RPCCommand.t → RPCResponse.t;
  (** [ot_.Client(index).Storage().AccountOwner(accountID)->str()] *)
  AccountOwner : Z → string → string;
  (** [ot_.Crypto().Encode().Z85Encode(frame)] *)
  Z85Encode : zmq.Frame → string
}.

(** The calls into the protobuf library, parameters as well. *)
Record Proto : Type := {
  (** [proto::DataToProto<proto::RPCCommand>] *)
  DataToProto_RPCCommand : Data → RPCCommand.t;
  (** [proto::DataToProto<proto::RPCPush>] *)
  DataToProto_RPCPush : Data → RPCPush.t;
  (** [proto::ProtoAsData<proto::RPCResponse>] *)
  ProtoAsData_RPCResponse : RPCResponse.t → Data;
  (** [proto::ProtoAsData] on an [RPCPush] *)
  ProtoAsData_RPCPush : RPCPush.t → Data;
  (** [proto::Validate(message, VERBOSE)] on an [RPCPush] *)
  Validate : RPCPush.t → bool
}.

(** ** The agent's memory *)

(** Modelled from the spec: the data members of [Agent]; the class
    declaration (Agent.hpp) is not under src/, the members are those the
    constructor of [Agent.cpp] initialises and the handlers touch.  The two
    sockets the handlers write to are kept as the lists of messages sent on
    them, oldest first; [settings_file] is what [settings_path_] holds on
    disk, and [refresh_] lists the client instances [schedule_refresh] ran
    on.  [clients_] and [servers_] are taken as 64-bit counters, the type
    of the constructor arguments they are initialised from. *)
Record Agent : Type := {
  clients_ : Z;
  servers_ : Z;
  config_ : pt.ptree;
  settings_file : option pt.ptree;
  client_pubkey_ : string;
  task_connection_map_ : gmap string TaskData;
  nym_connection_map_ : gmap string Data;
  internal_ : list zmq.Message;
  frontend_ : list zmq.Message;
  refresh_ : list Z
}.

Definition with_clients (v : Z) (a : Agent) : Agent :=
  {| clients_ := v; servers_ := servers_ a; config_ := config_ a;
     settings_file := settings_file a; client_pubkey_ := client_pubkey_ a;
     task_connection_map_ := task_connection_map_ a;
     nym_connection_map_ := nym_connection_map_ a;
     internal_ := internal_ a; frontend_ := frontend_ a;
     refresh_ := refresh_ a |}.

Definition with_servers (v : Z) (a : Agent) : Agent :=
  {| clients_ := clients_ a; servers_ := v; config_ := config_ a;
     settings_file := settings_file a; client_pubkey_ := client_pubkey_ a;
     task_connection_map_ := task_connection_map_ a;
     nym_connection_map_ := nym_connection_map_ a;
     internal_ := internal_ a; frontend_ := frontend_ a;
     refresh_ := refresh_ a |}.

Definition with_config (v : pt.ptree) (a : Agent) : Agent :=
  {| clients_ := clients_ a; servers_ := servers_ a; config_ := v;
     settings_file := settings_file a; client_pubkey_ := client_pubkey_ a;
     task_connection_map_ := task_connection_map_ a;
     nym_connection_map_ := nym_connection_map_ a;
     internal_ := internal_ a; frontend_ := frontend_ a;
     refresh_ := refresh_ a |}.

Definition with_settings_file (v : option pt.ptree) (a : Agent) : Agent :=
  {| clients_ := clients_ a; servers_ := servers_ a; config_ := config_ a;
     settings_file := v; client_pubkey_ := client_pubkey_ a;
     task_connection_map_ := task_connection_map_ a;
     nym_connection_map_ := nym_connection_map_ a;
     internal_ := internal_ a; frontend_ := frontend_ a;
     refresh_ := refresh_ a |}.

Definition with_tasks (v : gmap string TaskData) (a : Agent) : Agent :=
  {| clients_ := clients_ a; servers_ := servers_ a; config_ := config_ a;
     settings_file := settings_file a; client_pubkey_ := client_pubkey_ a;
     task_connection_map_ := v;
     nym_connection_map_ := nym_connection_map_ a;
     internal_ := internal_ a; frontend_ := frontend_ a;
     refresh_ := refresh_ a |}.

Definition with_nyms (v : gmap string Data) (a : Agent) : Agent :=
  {| clients_ := clients_ a; servers_ := servers_ a; config_ := config_ a;
     settings_file := settings_file a; client_pubkey_ := client_pubkey_ a;
     task_connection_map_ := task_connection_map_ a;
     nym_connection_map_ := v;
     internal_ := internal_ a; frontend_ := frontend_ a;
     refresh_ := refresh_ a |}.

Definition with_internal (v : list zmq.Message) (a : Agent) : Agent :=
  {| clients_ := clients_ a; servers_ := servers_ a; config_ := config_ a;
     settings_file := settings_file a; client_pubkey_ := client_pubkey_ a;
     task_connection_map_ := task_connection_map_ a;
     nym_connection_map_ := nym_connection_map_ a;
     internal_ := v; frontend_ := frontend_ a;
     refresh_ := refresh_ a |}.

Definition with_frontend (v : list zmq.Message) (a : Agent) : Agent :=
  {| clients_ := clients_ a; servers_ := servers_ a; config_ := config_ a;
     settings_file := settings_file a; client_pubkey_ := client_pubkey_ a;
     task_connection_map_ := task_connection_map_ a;
     nym_connection_map_ := nym_connection_map_ a;
     internal_ := internal_ a; frontend_ := v;
     refresh_ := refresh_ a |}.

Definition with_refresh (v : list Z) (a : Agent) : Agent :=
  {| clients_ := clients_ a; servers_ := servers_ a; config_ := config_ a;
     settings_file := settings_file a; client_pubkey_ := client_pubkey_ a;
     task_connection_map_ := task_connection_map_ a;
     nym_connection_map_ := nym_connection_map_ a;
     internal_ := internal_ a; frontend_ := frontend_ a;
     refresh_ := v |}.

(** ** Handlers as state transformers that may abort *)

Inductive outcome (A : Type) : Type :=
  | Returned (a : A) (s : Agent)
  | Aborted (e : error) (s : Agent).
Arguments Returned {A} a s.
Arguments Aborted {A} e s.

(** The agent's memory when the handler returned or aborted. *)
Definition state_of {A} (o : outcome A) : Agent :=
  match o with
  | Returned _ s => s
  | Aborted _ s => s
  end.

Definition M (A : Type) : Type := Agent → outcome A.

Definition ret {A} (a : A) : M A := fun s => Returned a s.

Definition bind {A B} (c : M A) (k : A → M B) : M B :=
  fun s =>
    match c s with
    | Returned a s' => k a s'
    | Aborted e s' => Aborted e s'
    end.

Definition lift {A} (r : result A) : M A :=
  fun s =>
    match r with
    | Ok a => Returned a s
    | Err e => Aborted e s
    end.

Definition gets {A} (f : Agent → A) : M A := fun s => Returned (f s) s.

Definition modify (f : Agent → Agent) : M unit := fun s => Returned tt (f s).

Declare Scope agent_scope.
Delimit Scope agent_scope with agent.
Notation "x <- c ;; k" := (bind c (fun x => k))
  (at level 63, c at next level, right associativity) : agent_scope.
Notation "c ;;; k" := (bind c (fun _ => k))
  (at level 63, right associativity) : agent_scope.
Local Open Scope agent_scope.

(** A range-for loop whose body is a handler step. *)
Fixpoint for_each {A} (body : A → M unit) (l : list A) : M unit :=
  match l with
  | [] => ret tt
  | x :: l' => body x ;;; for_each body l'
  end.

(** ** [Agent.cpp] *)

(** [0 < response.status_size() && code == response.status(0).code()] *)
Definition first_status_is (code : RPCResponseCode) (response : RPCResponse.t)
  : bool :=
  bool_decide (0 < length (RPCResponse.status response))%nat &&
  match RPCResponse.status response !! 0%nat with
  | Some s => bool_decide (code = RPCStatus.code s)
  | None => false
  end.

(** An element of a protobuf repeated field, by index. *)
Definition repeated_at {A} (l : list A) (i : nat) : result A :=
  match l !! i with
  | Some x => Ok x
  | None => Err repeated_field_index
  end.

Definition associate_nym (connection : Data) (nymID : string) : M unit :=
  if empty nymID then ret tt
  else
    it <- gets (fun a => nym_connection_map_ a !! nymID) ;;
    match it with
    | None =>
        modify (fun a =>
          with_nyms (emplace nymID connection (nym_connection_map_ a)) a)
    | Some _ => ret tt
    end.

Definition associate_task (connection : Data) (nymID task : string)
  : M unit :=
  lift (OT_ASSERT (negb (empty connection))) ;;;
  lift (OT_ASSERT (negb (empty nymID))) ;;;
  lift (OT_ASSERT (negb (empty task))) ;;;
  modify (fun a =>
    with_tasks (emplace task (connection, nymID) (task_connection_map_ a)) a).

(** [session] is a [std::uint32_t]; the quotient is returned as an [int]. *)
Definition session_to_client_index (session : Z) : result Z :=
  result_bind (OT_ASSERT (bool_decide (0 = session mod 2))) (fun _ =>
  Ok (int32_wrap (session / 2))).

(** [write_ini] replaces the file by the tree in memory (a write that
    fails is not modelled). *)
Definition save_config : M unit :=
  modify (fun a => with_settings_file (Some (config_ a)) a).

(** [section] and [entry] are references into [config_]: the new value is
    written into the tree itself.  [++value] wraps at 64 bits. *)
Definition increment_config_value (sectionName entryName : string)
  : M unit :=
  config <- gets config_ ;;
  section <- lift (pt.get_child sectionName config) ;;
  entry <- lift (pt.get_child entryName section) ;;
  value <- lift (pt.get_value_int64 entry) ;;
  let value := int64_wrap (value + 1) in
  modify (with_config
    (pt.write_at (pt.fragments sectionName ++ pt.fragments entryName)
       (pt.put_value_int64 value) config)) ;;;
  save_config.

Definition schedule_refresh (instance : Z) : M unit :=
  modify (fun a => with_refresh (refresh_ a ++ [instance]) a).

Definition update_clients : M unit :=
  increment_config_value CONFIG_SECTION CONFIG_CLIENTS ;;;
  modify (fun a => with_clients (int64_wrap (clients_ a + 1)) a) ;;;
  newCount <- gets clients_ ;;
  let newIndex := int32_wrap (int32_wrap newCount - 1) in
  schedule_refresh newIndex.

Definition update_servers : M unit :=
  increment_config_value CONFIG_SECTION CONFIG_SERVERS ;;;
  modify (fun a => with_servers (int64_wrap (servers_ a + 1)) a).

Definition instantiate_push (connectionID : Data) : result zmq.Message :=
  result_bind (OT_ASSERT (bool_decide (0 < String.length connectionID)%nat))
    (fun _ =>
  let output := zmq.Factory in
  let output := zmq.AddFrame connectionID output in
  let output := zmq.AddFrame "" output in
  let output := zmq.AddFrame "PUSH" output in
  result_bind (OT_ASSERT (bool_decide (1 = length (zmq.Header output))%nat))
    (fun _ =>
  result_bind (OT_ASSERT (bool_decide (1 = length (zmq.Body output))%nat))
    (fun _ =>
  Ok output))).

(** [frontend_->Send(message)] *)
Definition frontend_Send (message : zmq.Message) : M unit :=
  modify (fun a => with_frontend (frontend_ a ++ [message]) a).

(** [internal_->Send(message)] *)
Definition internal_Send (message : zmq.Message) : M unit :=
  modify (fun a => with_internal (internal_ a ++ [message]) a).

Definition internal_handler (message : zmq.Message) : M unit :=
  frontend_Send message.

Definition frontend_handler (message : zmq.Message) : M unit :=
  let size := length (zmq.Header message) in
  lift (OT_ASSERT (bool_decide (0 < size)%nat)) ;;;
  if bool_decide (0 = length (zmq.Body message))%nat then ret tt
  else
    identity <- lift (zmq.at_ (zmq.Header message) (size - 1)) ;;
    lift (OT_ASSERT (bool_decide (0 < String.length identity)%nat)) ;;;
    let message := zmq.AddFrame identity message in
    internal_Send message.

Section WithCollaborators.

Variable ot_ : Native.
Variable codec : Proto.

(** The [switch] of [backend_handler]; its value is [taskNymID]. *)
Definition backend_switch (connectionID : Data) (command : RPCCommand.t)
    (response : RPCResponse.t) : M string :=
  match RPCResponse.type response with
  | RPCCOMMAND_ADDCLIENTSESSION =>
      (if first_status_is RPCRESPONSE_SUCCESS response
       then update_clients else ret tt) ;;;
      ret ""
  | RPCCOMMAND_ADDSERVERSESSION =>
      (if first_status_is RPCRESPONSE_SUCCESS response
       then update_servers else ret tt) ;;;
      ret ""
  | RPCCOMMAND_CREATENYM =>
      for_each (associate_nym connectionID)
        (RPCResponse.identifier response) ;;;
      ret ""
  | RPCCOMMAND_REGISTERNYM
  | RPCCOMMAND_ISSUEUNITDEFINITION
  | RPCCOMMAND_CREATEACCOUNT
  | RPCCOMMAND_CREATECOMPATIBLEACCOUNT =>
      ret (RPCCommand.owner command)
  | RPCCOMMAND_SENDPAYMENT =>
      if first_status_is RPCRESPONSE_QUEUED response then
        let accountID :=
          SendPayment.sourceaccount (RPCCommand.sendpayment command) in
        index <- lift (session_to_client_index
                         (RPCCommand.session command)) ;;
        ret (AccountOwner ot_ index accountID)
      else ret ""
  | RPCCOMMAND_ACCEPTPENDINGPAYMENTS =>
      if first_status_is RPCRESPONSE_QUEUED response then
        payment <- lift (repeated_at
                           (RPCCommand.acceptpendingpayment command) 0) ;;
        let accountID := AcceptPendingPayment.destinationaccount payment in
        index <- lift (session_to_client_index
                         (RPCCommand.session command)) ;;
        ret (AccountOwner ot_ index accountID)
      else ret ""
  | _ => ret ""
  end.

(** The block after the [switch]. *)
Definition backend_queue_task (connectionID : Data) (taskNymID : string)
    (response : RPCResponse.t) : M unit :=
  if first_status_is RPCRESPONSE_QUEUED response then
    if bool_decide (0 < length (RPCResponse.task response))%nat then
      task <- lift (repeated_at (RPCResponse.task response) 0) ;;
      let taskID := RPCTask.id task in
      associate_task connectionID taskNymID taskID
    else ret tt
  else ret tt.

Definition backend_handler (message : zmq.Message) : M zmq.Message :=
  lift (OT_ASSERT (bool_decide (1 < length (zmq.Body message))%nat)) ;;;
  request <- lift (zmq.at_ (zmq.Body message) 0) ;;
  let command := DataToProto_RPCCommand codec request in
  connectionID <- lift (zmq.at_ (zmq.Body message) 1) ;;
  for_each (associate_nym connectionID)
    (RPCCommand.associatenym command) ;;;
  let response := RPC ot_ command in
  taskNymID <- backend_switch connectionID command response ;;
  backend_queue_task connectionID taskNymID response ;;;
  let replymessage := zmq.ReplyFactory message in
  let replydata := ProtoAsData_RPCResponse codec response in
  ret (zmq.AddFrame replydata replymessage).

Definition send_task_push (connectionID : Data) (taskID nymID : string)
    (result : bool) : M unit :=
  lift (OT_ASSERT (negb (empty connectionID))) ;;;
  lift (OT_ASSERT (negb (empty taskID))) ;;;
  lift (OT_ASSERT (negb (empty nymID))) ;;;
  push <- lift (instantiate_push connectionID) ;;
  let message :=
    {| RPCPush.version := RPCPUSH_VERSION;
       RPCPush.type := RPCPUSH_TASK;
       RPCPush.id := nymID;
       RPCPush.taskcomplete :=
         {| TaskComplete.version := TASKCOMPLETE_VERSION;
            TaskComplete.id := taskID;
            TaskComplete.result := result |} |} in
  lift (OT_ASSERT (Validate codec message)) ;;;
  let push := zmq.AddFrame (ProtoAsData_RPCPush codec message) push in
  frontend_Send push.

Definition process_task_push (message : zmq.Message) : M unit :=
  payload <- lift (zmq.at_ (zmq.Body message) 0) ;;
  let push := DataToProto_RPCPush codec payload in
  let taskcomplete := RPCPush.taskcomplete push in
  let taskID := TaskComplete.id taskcomplete in
  let success := TaskComplete.result taskcomplete in
  it <- gets (fun a => task_connection_map_ a !! taskID) ;;
  match it with
  | None => ret tt
  | Some (connectionID, nymID) =>
      modify (fun a =>
        with_tasks (delete taskID (task_connection_map_ a)) a) ;;;
      lift (OT_ASSERT (negb (empty nymID))) ;;;
      send_task_push connectionID taskID nymID success
  end.

Definition push_handler (message : zmq.Message) : M unit :=
  if bool_decide (1 = length (zmq.Body message))%nat then
    process_task_push message
  else if bool_decide (3 ≠ length (zmq.Body message))%nat then ret tt
  else
    nymID <- lift (zmq.at_ (zmq.Body message) 0) ;;
    payload <- lift (zmq.at_ (zmq.Body message) 1) ;;
    instance <- lift (zmq.at_ (zmq.Body message) 2) ;;
    found <- gets (fun a => nym_connection_map_ a !! nymID) ;;
    match found with
    | None => ret tt
    | Some connection =>
        notification <- lift (instantiate_push connection) ;;
        let notification := zmq.AddFrame payload notification in
        let notification := zmq.AddFrame instance notification in
        frontend_Send notification
    end.

(** [zap_handler] is [const]: it reads [client_pubkey_] only. *)
Definition zap_handler (a : Agent) (request : zap.Request)
  : result zap.Reply :=
  let output := zap.Factory request in
  result_bind (zmq.at_ (zap.Credentials request) 0) (fun pubkey =>
  if bool_decide (zap.Curve ≠ zap.Mechanism_ request) then
    let output := zap.SetCode zap.AuthFailure output in
    Ok (zap.SetStatus "Unsupported mechanism" output)
  else if bool_decide (client_pubkey_ a ≠ Z85Encode ot_ pubkey) then
    let output := zap.SetCode zap.AuthFailure output in
    Ok (zap.SetStatus "Incorrect pubkey" output)
  else
    let output := zap.SetCode zap.Success output in
    Ok (zap.SetStatus "OK" output)).

End WithCollaborators.

(** ** Vocabulary of the design document *)

(** The command kinds that own an asynchronous outcome (the table of the
    worker pool). *)
Definition owns_task (t : RPCCommandType) : bool :=
  match t with
  | RPCCOMMAND_REGISTERNYM
  | RPCCOMMAND_ISSUEUNITDEFINITION
  | RPCCOMMAND_CREATEACCOUNT
  | RPCCOMMAND_CREATECOMPATIBLEACCOUNT
  | RPCCOMMAND_SENDPAYMENT
  | RPCCOMMAND_ACCEPTPENDINGPAYMENTS => true
  | _ => false
  end.

(** A status of kind [code] at some index of the status list. *)
Definition some_status_is (code : RPCResponseCode) (response : RPCResponse.t)
  : bool :=
  existsb (fun s => bool_decide (code = RPCStatus.code s))
    (RPCResponse.status response).

(** The value a handler returned, if it did. *)
Definition value_of {A} (o : outcome A) : option A :=
  match o with
  | Returned a _ => Some a
  | Aborted _ _ => None
  end.

(** Every entry of the task table has a non-empty task id, connection and
    nym: what [associate_task] asserts before it inserts. *)
Definition task_table_wf (tasks : gmap string TaskData) : Prop :=
  map_Forall (fun task (d : TaskData) =>
    task ≠ "" ∧ d.1 ≠ "" ∧ d.2 ≠ "") tasks.

(** The nym table after [associate_nym connection] has run on each of
    [nyms] in turn. *)
Definition associate_all (connection : Data) (nyms : list string)
    (table : gmap string Data) : gmap string Data :=
  foldl (fun m nymID => if empty nymID then m else emplace nymID connection m)
    table nyms.

(** [getInt(section, key)]: the read that [increment_config_value] starts
    with. *)
Definition get_int (sectionName entryName : string) (config : pt.ptree)
  : result Z :=
  result_bind (pt.get_child sectionName config) (fun section =>
  result_bind (pt.get_child entryName section) (fun entry =>
  pt.get_value_int64 entry)).

(** The push that [send_task_push] builds. *)
Definition task_push (nymID taskID : string) (result : bool) : RPCPush.t :=
  {| RPCPush.version := RPCPUSH_VERSION;
     RPCPush.type := RPCPUSH_TASK;
     RPCPush.id := nymID;
     RPCPush.taskcomplete :=
       {| TaskComplete.version := TASKCOMPLETE_VERSION;
          TaskComplete.id := taskID;
          TaskComplete.result := result |} |}.

(** A handler step keeps a component [f] of the agent's memory when that
    component is the same after the step, returned or aborted. *)
Definition keeps {A B} (f : Agent → B) (c : M A) : Prop :=
  ∀ s, f (state_of (c s)) = f s.

(** A handler step preserves a property [P] of the agent's memory when [P]
    holds after the step, returned or aborted, if it held before. *)
Definition preserves {A} (P : Agent → Prop) (c : M A) : Prop :=
  ∀ s, P s → P (state_of (c s)).

(** ** Concrete agents, engines and messages *)

Module Sample.

Definition config : pt.ptree :=
  pt.Node ""
    [("otagent",
      pt.Node ""
        [("clients", pt.Node "2" []); ("servers", pt.Node "1" [])])].

Definition agent : Agent :=
  {| clients_ := 2; servers_ := 1; config_ := config;
     settings_file := None; client_pubkey_ := "client-key";
     task_connection_map_ := ∅; nym_connection_map_ := ∅;
     internal_ := []; frontend_ := []; refresh_ := [] |}.

Definition command (t : RPCCommandType) : RPCCommand.t :=
  {| RPCCommand.type := t;
     RPCCommand.session := 4;
     RPCCommand.owner := "NymX";
     RPCCommand.associatenym := [];
     RPCCommand.sendpayment := {| SendPayment.sourceaccount := "A" |};
     RPCCommand.acceptpendingpayment := [] |}.

Definition response (t : RPCCommandType) (codes : list RPCResponseCode)
    (ids tasks : list string) : RPCResponse.t :=
  {| RPCResponse.type := t;
     RPCResponse.status := map RPCStatus.Build_t codes;
     RPCResponse.identifier := ids;
     RPCResponse.task := map RPCTask.Build_t tasks |}.

(** An engine that answers every command with [r]; in client 2 the
    account ["A"] belongs to ["NymX"], and no other account is known. *)
Definition engine (r : RPCResponse.t) : Native :=
  {| RPC := fun _ => r;
     AccountOwner := fun index account =>
       if bool_decide (index = 2 ∧ account = "A") then "NymX" else "";
     Z85Encode := fun frame => frame |}.

(** A codec that reads every request as [c] and every push as [p], and
    writes a push as its nym, task id and result. *)
Definition codec (c : RPCCommand.t) (p : RPCPush.t) : Proto :=
  {| DataToProto_RPCCommand := fun _ => c;
     DataToProto_RPCPush := fun _ => p;
     ProtoAsData_RPCResponse := fun _ => "response";
     ProtoAsData_RPCPush := fun push =>
       RPCPush.id push +:+ "/" +:+
       TaskComplete.id (RPCPush.taskcomplete push) +:+ "/" +:+
       (if TaskComplete.result (RPCPush.taskcomplete push)
        then "true" else "false");
     Validate := fun _ => true |}.

Definition no_push : RPCPush.t :=
  {| RPCPush.version := 0; RPCPush.type := RPCPUSH_ERROR; RPCPush.id := "";
     RPCPush.taskcomplete :=
       {| TaskComplete.version := 0; TaskComplete.id := "";
          TaskComplete.result := false |} |}.

(** A request as a worker receives it from connection ["C"]. *)
Definition worker_request : zmq.Message := ["C"; ""; "command"; "C"].

(** A request with a two-frame body as the router hands it to the
    frontend handler. *)
Definition two_frame_request : zmq.Message := ["C"; ""; "command"; "X"].

Definition one_frame_request : zmq.Message := ["C"; ""; "command"].

Definition task_done : RPCPush.t :=
  {| RPCPush.version := 2; RPCPush.type := RPCPUSH_TASK; RPCPush.id := "";
     RPCPush.taskcomplete :=
       {| TaskComplete.version := 1; TaskComplete.id := "T1";
          TaskComplete.result := true |} |}.

Definition waiting_agent : Agent :=
  with_tasks {[ "T1" := ("C", "NymX") ]} agent.

Definition full_config : pt.ptree :=
  pt.Node ""
    [("otagent",
      pt.Node "" [("clients", pt.Node "9223372036854775807" [])])].

Definition null_request : zap.Request :=
  {| zap.Mechanism_ := zap.Null; zap.Credentials := [] |}.

End Sample.

(** ** Start-up helpers and the callbacks *)

(** [std::to_string] of an [unsigned int]: its decimal digits. *)
Definition to_string (i : nat) : string :=
  NilZero.string_of_uint (Nat.to_uint i).

(** The loop of [backend_endpoint_generator] with [remaining] rounds to go:
    each round appends the endpoint of index [i] and counts [i] up. *)
Fixpoint endpoint_loop (prefix : string) (i remaining : nat)
    (output : list string) : list string :=
  match remaining with
  | O => output
  | S remaining' =>
      endpoint_loop prefix (S i) remaining'
        (output ++ [prefix +:+ to_string i])
  end.

(** [hardware_concurrency] is what [std::thread::hardware_concurrency()]
    returns, which may be 0. *)
Definition backend_endpoint_generator (hardware_concurrency : nat)
  : list string :=
  let min_threads := 1%nat in
  let threads := Nat.max hardware_concurrency min_threads in
  let output := [] in
  let prefix := "inproc://opentxs/agent/backend/" in
  endpoint_loop prefix 0 threads output.

(** The callbacks that the constructor binds to the sockets, each with the
    message it is invoked on. *)
Inductive callback : Type :=
  | internal_callback_ (message : zmq.Message)
  | backend_callback_ (message : zmq.Message)
  | frontend_callback_ (message : zmq.Message)
  | push_callback_ (message : zmq.Message).

(** One invocation; the reply of the worker handler leaves on the worker's
    socket and is no part of the agent's memory. *)
Definition invoke (ot_ : Native) (codec : Proto) (c : callback) : M unit :=
  match c with
  | internal_callback_ message => internal_handler message
  | backend_callback_ message =>
      backend_handler ot_ codec message ;;; ret tt
  | frontend_callback_ message => frontend_handler message
  | push_callback_ message => push_handler codec message
  end.

(** A run of the agent: callbacks one after the other, until one aborts. *)
Definition run (ot_ : Native) (codec : Proto) (calls : list callback)
  : M unit :=
  for_each (invoke ot_ codec) calls.

(** * Properties *)

(** ** Byte strings and machine integers *)

Lemma empty_false (s : string) : s ≠ "" → empty s = false.
Proof. intros H. unfold empty. by apply bool_decide_eq_false. Qed.

Lemma empty_true (s : string) : empty s = true → s = "".
Proof. unfold empty. by intros H%bool_decide_eq_true. Qed.

Lemma length_pos (s : string) : s ≠ "" → (0 < String.length s)%nat.
Proof. destruct s; [done | simpl; lia]. Qed.

Lemma int32_wrap_small (z : Z) :
  - 2 ^ 31 ≤ z < 2 ^ 31 → int32_wrap z = z.
Proof.
  intros H. unfold int32_wrap.
  rewrite Z.mod_small; lia.
Qed.

Lemma int64_wrap_small (z : Z) :
  INT64_MIN ≤ z ≤ INT64_MAX → int64_wrap z = z.
Proof.
  unfold INT64_MIN, INT64_MAX, int64_wrap. intros H.
  rewrite Z.mod_small; lia.
Qed.

(** ** The association tables *)

Lemma emplace_absent {V} (k : string) (v : V) (m : gmap string V) :
  m !! k = None → emplace k v m = <[k := v]> m.
Proof. intros H. unfold emplace. by rewrite H. Qed.

Lemma emplace_present {V} (k : string) (v w : V) (m : gmap string V) :
  m !! k = Some w → emplace k v m = m.
Proof. intros H. unfold emplace. by rewrite H. Qed.

Lemma emplace_lookup {V} (k : string) (v : V) (m : gmap string V) :
  emplace k v m !! k = Some (default v (m !! k)).
Proof.
  unfold emplace. destruct (m !! k) eqn:E; simpl.
  - done.
  - apply lookup_insert_eq.
Qed.

Lemma emplace_lookup_ne {V} (k k' : string) (v : V) (m : gmap string V) :
  k ≠ k' → emplace k v m !! k' = m !! k'.
Proof.
  intros H. unfold emplace. destruct (m !! k); [done |].
  by apply lookup_insert_ne.
Qed.

(** An association that is already there makes [associate_nym] a no-op. *)
Lemma associate_nym_known (connection held : Data) (nymID : string)
    (a : Agent) :
  nym_connection_map_ a !! nymID = Some held →
  associate_nym connection nymID a = Returned tt a.
Proof.
  intros H. unfold associate_nym.
  destruct (empty nymID); [done |].
  unfold bind, gets. by rewrite H.
Qed.

Lemma associate_nym_fresh (connection : Data) (nymID : string) (a : Agent) :
  nymID ≠ "" →
  nym_connection_map_ a !! nymID = None →
  associate_nym connection nymID a =
    Returned tt (with_nyms (<[nymID := connection]> (nym_connection_map_ a)) a).
Proof.
  intros Hne H. unfold associate_nym.
  rewrite (empty_false _ Hne). unfold bind, gets, modify.
  by rewrite H, (emplace_absent _ _ _ H).
Qed.

(** C1. Nym association is first-write-wins: when [associate_nym C1 n] has
    inserted the mapping for a non-empty nym [n], a later
    [associate_nym C2 n] returns with the agent, and so the nym table,
    unchanged, and looking [n] up still gives [C1].  This holds for every
    [C2], equal to [C1] or not. *)
Theorem associate_nym_first_write_wins (C1 C2 : Data) (n : string)
    (a : Agent) :
  n ≠ "" →
  nym_connection_map_ a !! n = None →
  let a1 := state_of (associate_nym C1 n a) in
  let a2 := state_of (associate_nym C2 n a1) in
  nym_connection_map_ a1 !! n = Some C1 ∧
  associate_nym C2 n a1 = Returned tt a1 ∧
  nym_connection_map_ a2 = nym_connection_map_ a1 ∧
  nym_connection_map_ a2 !! n = Some C1.
Proof.
  intros Hne Habsent a1 a2.
  assert (H1 : nym_connection_map_ a1 !! n = Some C1).
  { subst a1. rewrite (associate_nym_fresh _ _ _ Hne Habsent). simpl.
    apply lookup_insert_eq. }
  assert (H2 : associate_nym C2 n a1 = Returned tt a1)
    by (by eapply associate_nym_known).
  subst a2. rewrite H2. simpl. auto.
Qed.

Lemma associate_nym_first_write_wins_witness :
  let a1 := state_of (associate_nym "C1" "N1" Sample.agent) in
  let a2 := state_of (associate_nym "C2" "N1" a1) in
  nym_connection_map_ a1 !! "N1" = Some "C1" ∧
  associate_nym "C2" "N1" a1 = Returned tt a1 ∧
  nym_connection_map_ a2 = nym_connection_map_ a1 ∧
  nym_connection_map_ a2 !! "N1" = Some "C1".
Proof.
  apply (associate_nym_first_write_wins "C1" "C2" "N1" Sample.agent).
  - discriminate.
  - reflexivity.
Defined.

(** ** The session classifier *)

(** C8. For a session number (a 32-bit unsigned value) that is even,
    [session_to_client_index] returns [session / 2]; for an odd one its
    assertion fails.  So the call fails exactly when the session is odd. *)
Theorem session_to_client_index_even_odd (session : Z) :
  0 ≤ session ≤ UINT32_MAX →
  (session mod 2 = 0 →
     session_to_client_index session = Ok (session / 2)) ∧
  (session mod 2 ≠ 0 →
     session_to_client_index session = Err AssertionFailure) ∧
  (session_to_client_index session = Err AssertionFailure ↔
     session mod 2 ≠ 0).
Proof.
  unfold UINT32_MAX. intros Hrange.
  assert (Heven : session mod 2 = 0 →
            session_to_client_index session = Ok (session / 2)).
  { intros H. unfold session_to_client_index.
    rewrite bool_decide_eq_true_2 by done. simpl.
    rewrite int32_wrap_small; [done |].
    split; [| apply Z.div_lt_upper_bound]; try lia.
    transitivity 0; [lia | apply Z.div_pos; lia]. }
  assert (Hodd : session mod 2 ≠ 0 →
            session_to_client_index session = Err AssertionFailure).
  { intros H. unfold session_to_client_index.
    rewrite bool_decide_eq_false_2; [done | congruence]. }
  split; [done |]. split; [done |]. split; [| done].
  intros Herr Hmod. rewrite (Heven Hmod) in Herr. discriminate.
Qed.

Lemma session_to_client_index_even_odd_witness :
  (4 mod 2 = 0 → session_to_client_index 4 = Ok (4 / 2)) ∧
  (4 mod 2 ≠ 0 → session_to_client_index 4 = Err AssertionFailure) ∧
  (session_to_client_index 4 = Err AssertionFailure ↔ 4 mod 2 ≠ 0).
Proof.
  apply (session_to_client_index_even_odd 4).
  unfold UINT32_MAX. lia.
Defined.

(** ** The ZAP handler *)

(** With a first credential at hand the handler answers by mechanism and
    key, in that order. *)
Lemma zap_handler_with_credential (ot_ : Native) (a : Agent)
    (request : zap.Request) (pubkey : zmq.Frame) :
  zap.Credentials request !! 0%nat = Some pubkey →
  ∃ reply, zap_handler ot_ a request = Ok reply ∧
    (zap.Code reply, zap.StatusText reply) =
      if bool_decide (zap.Mechanism_ request = zap.Curve) then
        if bool_decide (Z85Encode ot_ pubkey = client_pubkey_ a)
        then (zap.Success, "OK")
        else (zap.AuthFailure, "Incorrect pubkey")
      else (zap.AuthFailure, "Unsupported mechanism").
Proof.
  intros H. unfold zap_handler, zmq.at_. rewrite H. simpl.
  destruct (decide (zap.Mechanism_ request = zap.Curve)) as [Hm | Hm].
  - rewrite (bool_decide_eq_true_2 _ Hm).
    rewrite bool_decide_eq_false_2 by (intros Hc; by apply Hc).
    destruct (decide (Z85Encode ot_ pubkey = client_pubkey_ a)) as [Hk | Hk].
    + rewrite (bool_decide_eq_true_2 _ Hk).
      rewrite bool_decide_eq_false_2 by (intros Hc; by apply Hc).
      eauto.
    + rewrite (bool_decide_eq_false_2 _ Hk).
      rewrite bool_decide_eq_true_2 by (intros Hc; by apply Hk).
      eauto.
  - rewrite (bool_decide_eq_false_2 _ Hm).
    rewrite bool_decide_eq_true_2 by (intros Hc; by apply Hm).
    eauto.
Qed.

(** C7. A request of the NULL mechanism carries no credentials; the handler
    reads [Credentials().at(0)] before it looks at the mechanism, so it
    throws [std::out_of_range] where the design asks for the reply
    AuthFailure, "Unsupported mechanism". *)
Theorem zap_handler_null_mechanism_throws (ot_ : Native) (a : Agent) :
  zap.Mechanism_ Sample.null_request ≠ zap.Curve ∧
  zap_handler ot_ a Sample.null_request = Err out_of_range.
Proof. split; [discriminate | reflexivity]. Qed.

(** C10. The first credential is read before the mechanism is checked: for
    every request whose list of credentials is empty, whatever its
    mechanism, the handler throws and returns no reply. *)
Theorem zap_handler_no_credentials_throws (ot_ : Native) (a : Agent)
    (request : zap.Request) :
  zap.Credentials request = [] →
  zap_handler ot_ a request = Err out_of_range.
Proof.
  intros H. unfold zap_handler, zmq.at_. by rewrite H.
Qed.

Lemma zap_handler_no_credentials_throws_witness :
  zap_handler (Sample.engine (Sample.response RPCCOMMAND_ERROR [] [] []))
    Sample.agent
    {| zap.Mechanism_ := zap.Plain; zap.Credentials := [] |} =
  Err out_of_range.
Proof.
  apply (zap_handler_no_credentials_throws _ _
           {| zap.Mechanism_ := zap.Plain; zap.Credentials := [] |}).
  reflexivity.
Defined.

(** ** Multipart messages *)

Lemma findDivider_lt (m : zmq.Message) :
  zmq.hasDivider m = true → (zmq.findDivider m < length m)%nat.
Proof.
  unfold zmq.hasDivider. induction m as [| f m IH]; simpl.
  - discriminate.
  - destruct (empty f); simpl; [lia |].
    intros H. specialize (IH H). lia.
Qed.

Lemma findDivider_app (m : zmq.Message) (x : zmq.Frame) :
  zmq.hasDivider m = true →
  zmq.findDivider (m ++ [x]) = zmq.findDivider m.
Proof.
  unfold zmq.hasDivider. induction m as [| f m IH]; simpl.
  - discriminate.
  - destruct (empty f); simpl; [done |].
    intros H. by rewrite IH.
Qed.

Lemma hasDivider_app (m : zmq.Message) (x : zmq.Frame) :
  zmq.hasDivider m = true → zmq.hasDivider (m ++ [x]) = true.
Proof.
  unfold zmq.hasDivider. intros H. by rewrite existsb_app, H.
Qed.

Lemma Header_nonempty_hasDivider (m : zmq.Message) :
  (0 < length (zmq.Header m))%nat → zmq.hasDivider m = true.
Proof.
  unfold zmq.Header. destruct (zmq.hasDivider m); [done |].
  simpl. lia.
Qed.

(** Adding a frame to a message that has its delimiter leaves the header
    alone and extends the body by that frame. *)
Lemma Header_AddFrame (m : zmq.Message) (x : zmq.Frame) :
  zmq.hasDivider m = true →
  zmq.Header (zmq.AddFrame x m) = zmq.Header m.
Proof.
  intros H. unfold zmq.Header, zmq.AddFrame.
  rewrite (hasDivider_app _ _ H), H, (findDivider_app _ _ H).
  apply take_app_le. pose proof (findDivider_lt _ H). lia.
Qed.

Lemma Body_AddFrame (m : zmq.Message) (x : zmq.Frame) :
  zmq.hasDivider m = true →
  zmq.Body (zmq.AddFrame x m) = zmq.Body m ++ [x].
Proof.
  intros H. unfold zmq.Body, zmq.AddFrame.
  rewrite (hasDivider_app _ _ H), H, (findDivider_app _ _ H).
  apply drop_app_le. pose proof (findDivider_lt _ H). lia.
Qed.

Lemma instantiate_push_ok (connectionID : Data) :
  connectionID ≠ "" →
  instantiate_push connectionID = Ok [connectionID; ""; "PUSH"].
Proof.
  intros H. unfold instantiate_push.
  rewrite bool_decide_eq_true_2 by (by apply length_pos). simpl.
  unfold zmq.Header, zmq.Body, zmq.hasDivider. simpl.
  rewrite (empty_false _ H). simpl. done.
Qed.

(** ** The frontend handler *)

Lemma Header_frames_nonempty (m : zmq.Message) (f : zmq.Frame) :
  f ∈ zmq.Header m → f ≠ "".
Proof.
  unfold zmq.Header. destruct (zmq.hasDivider m); [| by intros ?%elem_of_nil].
  induction m as [| g m IH]; simpl; [by intros ?%elem_of_nil |].
  destruct (empty g) eqn:E; simpl; [by intros ?%elem_of_nil |].
  intros [-> | Hin]%elem_of_cons; [| by apply IH].
  intros ->. discriminate.
Qed.

(** The frontend handler on a message that has a routing header, whose
    last frame is the sender's ConnectionId.  If the body is not empty, the
    handler appends exactly one frame, that ConnectionId, and sends the
    message on the internal socket: the header is as it was and the body is
    the old body followed by the ConnectionId.  If the body is the single
    frame of a command, the worker's body is [command; ConnectionId], with
    the ConnectionId at index 1.  If the body is empty, nothing is sent. *)
Lemma frontend_handler_appends_identity (message : zmq.Message)
    (identity : zmq.Frame) (a : Agent) :
  last (zmq.Header message) = Some identity →
  let forwarded := zmq.AddFrame identity message in
  (zmq.Body message ≠ [] →
     frontend_handler message a =
       Returned tt (with_internal (internal_ a ++ [forwarded]) a) ∧
     zmq.Header forwarded = zmq.Header message ∧
     zmq.Body forwarded = zmq.Body message ++ [identity]) ∧
  (∀ command, zmq.Body message = [command] →
     frontend_handler message a =
       Returned tt (with_internal (internal_ a ++ [forwarded]) a) ∧
     zmq.Body forwarded = [command; identity] ∧
     zmq.Body forwarded !! 1%nat = Some identity) ∧
  (zmq.Body message = [] → frontend_handler message a = Returned tt a).
Proof.
  intros Hlast forwarded.
  assert (Hne : identity ≠ "").
  { apply (Header_frames_nonempty message).
    rewrite last_lookup in Hlast. by eapply list_elem_of_lookup_2. }
  assert (Hsize : (0 < length (zmq.Header message))%nat).
  { destruct (zmq.Header message); [discriminate | simpl; lia]. }
  pose proof (Header_nonempty_hasDivider _ Hsize) as Hdiv.
  assert (Hbody : zmq.Body forwarded = zmq.Body message ++ [identity])
    by (by apply Body_AddFrame).
  assert (Hat : zmq.at_ (zmq.Header message)
                  (length (zmq.Header message) - 1) = Ok identity).
  { unfold zmq.at_. rewrite last_lookup in Hlast.
    replace (length (zmq.Header message) - 1)%nat
      with (pred (length (zmq.Header message))) by lia.
    by rewrite Hlast. }
  assert (Hrun : zmq.Body message ≠ [] →
            frontend_handler message a =
              Returned tt (with_internal (internal_ a ++ [forwarded]) a)).
  { intros Hnonempty. unfold frontend_handler.
    rewrite bool_decide_eq_true_2 by done.
    unfold bind at 1. simpl.
    rewrite bool_decide_eq_false_2
      by (destruct (zmq.Body message); [done | simpl; lia]).
    unfold bind, lift. rewrite Hat.
    rewrite bool_decide_eq_true_2 by (by apply length_pos).
    done. }
  split; [| split].
  - intros Hnonempty.
    split; [by apply Hrun | split; [by apply Header_AddFrame | done]].
  - intros command Hone. split; [apply Hrun; by rewrite Hone |].
    rewrite Hbody, Hone. done.
  - intros Hempty. unfold frontend_handler.
    rewrite bool_decide_eq_true_2 by done.
    unfold bind at 1. simpl.
    rewrite bool_decide_eq_true_2 by (by rewrite Hempty).
    done.
Qed.

Lemma frontend_handler_appends_identity_witness :
  frontend_handler Sample.one_frame_request Sample.agent =
    Returned tt
      (with_internal [["C"; ""; "command"; "C"]] Sample.agent) ∧
  zmq.Body ["C"; ""; "command"; "C"] = ["command"; "C"] ∧
  zmq.Body ["C"; ""; "command"; "C"] !! 1%nat = Some "C".
Proof.
  destruct (frontend_handler_appends_identity Sample.one_frame_request "C"
              Sample.agent) as (_ & Hone & _).
  - reflexivity.
  - apply (Hone "command"). reflexivity.
Defined.

(** C6.  The code departs from the claim at the request that the
    connection ["C"] sends with the two-frame body [["command"; "X"]].  The
    body is not empty, so the frontend handler forwards the message with
    one frame appended, the ConnectionId ["C"]; but the frame is appended at
    the end, and the body the worker gets is [["command"; "X"; "C"]]: it is
    not [[RPCCommand; ConnectionId]], and its frame at index 1 is the
    client's own frame ["X"].  The worker handler reads that frame as the
    connection id: the nym of a CreateNym response is associated with
    ["X"], the task of a queued SendPayment is recorded for ["X"], and the
    push that reports the task as complete is addressed to ["X"], while the
    reply to the request itself still goes to ["C"]. *)
Theorem frontend_handler_two_frame_body :
  let request := Sample.two_frame_request in
  let forwarded := ["C"; ""; "command"; "X"; "C"] in
  zmq.Header request = ["C"] ∧
  zmq.Body request = ["command"; "X"] ∧
  frontend_handler request Sample.agent =
    Returned tt (with_internal [forwarded] Sample.agent) ∧
  zmq.Body forwarded = ["command"; "X"; "C"] ∧
  zmq.Body forwarded !! 1%nat = Some "X" ∧
  (let response :=
     Sample.response RPCCOMMAND_CREATENYM [RPCRESPONSE_SUCCESS] ["N1"] [] in
   let outcome :=
     backend_handler (Sample.engine response)
       (Sample.codec (Sample.command RPCCOMMAND_CREATENYM) Sample.no_push)
       forwarded Sample.agent in
   outcome =
     Returned ["C"; ""; "response"]
       (with_nyms {[ "N1" := "X" ]} Sample.agent)) ∧
  (let response :=
     Sample.response RPCCOMMAND_SENDPAYMENT [RPCRESPONSE_QUEUED] [] ["T1"] in
   let codec :=
     Sample.codec (Sample.command RPCCOMMAND_SENDPAYMENT) Sample.task_done in
   let worked :=
     backend_handler (Sample.engine response) codec forwarded Sample.agent in
   let pushed := push_handler codec ["completion"] (state_of worked) in
   worked =
     Returned ["C"; ""; "response"]
       (with_tasks {[ "T1" := ("X", "NymX") ]} Sample.agent) ∧
   pushed =
     Returned tt
       (with_frontend [["X"; ""; "PUSH"; "NymX/T1/true"]] Sample.agent)).
Proof. repeat split; vm_compute; reflexivity. Qed.

(** ** The push bridge *)

Lemma send_task_push_ok (codec : Proto) (connectionID : Data)
    (taskID nymID : string) (result : bool) (a : Agent) :
  connectionID ≠ "" → taskID ≠ "" → nymID ≠ "" →
  Validate codec (task_push nymID taskID result) = true →
  send_task_push codec connectionID taskID nymID result a =
    Returned tt
      (with_frontend
         (frontend_ a ++
            [[connectionID; ""; "PUSH";
              ProtoAsData_RPCPush codec (task_push nymID taskID result)]])
         a).
Proof.
  intros Hc Ht Hn Hv. unfold send_task_push, bind, lift.
  rewrite (empty_false _ Hc), (empty_false _ Ht), (empty_false _ Hn). simpl.
  rewrite (instantiate_push_ok _ Hc).
  fold (task_push nymID taskID result). rewrite Hv. done.
Qed.

(** C5. A push with a one-frame body is a task completion.  In an agent
    whose task table holds only what [associate_task] lets in, and when the
    protobuf library accepts the push that is built: if the task id is in
    the table, the entry is removed and exactly one message is sent on the
    frontend, to the associated connection, carrying the RPCPush with
    version 2, type TASK, id the associated nym, and a taskcomplete of
    version 1 with the task id and the result of the incoming push; if the
    task id is not in the table, the handler returns with the agent
    unchanged: nothing is sent and the task table is as before. *)
Theorem push_handler_task_complete (codec : Proto) (message : zmq.Message)
    (payload : zmq.Frame) (a : Agent) :
  zmq.Body message = [payload] →
  task_table_wf (task_connection_map_ a) →
  let taskcomplete := RPCPush.taskcomplete (DataToProto_RPCPush codec payload) in
  let taskID := TaskComplete.id taskcomplete in
  (∀ connectionID nymID,
     task_connection_map_ a !! taskID = Some (connectionID, nymID) →
     let push :=
       {| RPCPush.version := 2;
          RPCPush.type := RPCPUSH_TASK;
          RPCPush.id := nymID;
          RPCPush.taskcomplete :=
            {| TaskComplete.version := 1;
               TaskComplete.id := taskID;
               TaskComplete.result := TaskComplete.result taskcomplete |} |} in
     let sent := [connectionID; ""; "PUSH"; ProtoAsData_RPCPush codec push] in
     Validate codec push = true →
     push_handler codec message a =
       Returned tt
         (with_frontend (frontend_ a ++ [sent])
            (with_tasks (delete taskID (task_connection_map_ a)) a)) ∧
     zmq.Header sent = [connectionID] ∧
     zmq.Body sent = ["PUSH"; ProtoAsData_RPCPush codec push]) ∧
  (task_connection_map_ a !! taskID = None →
     push_handler codec message a = Returned tt a).
Proof.
  intros Hbody Hwf taskcomplete taskID.
  assert (Hstart : ∀ s, push_handler codec message s =
            process_task_push codec message s).
  { intros s. unfold push_handler. by rewrite Hbody. }
  split.
  - intros connectionID nymID Hfound push sent Hvalid.
    destruct (Hwf _ _ Hfound) as (Ht & Hc & Hn). simpl in Hc, Hn.
    split; [| split].
    + rewrite Hstart. unfold process_task_push.
      rewrite Hbody. unfold bind at 1. simpl.
      unfold bind at 1. unfold gets.
      subst taskID taskcomplete. rewrite Hfound.
      unfold bind at 1. unfold modify.
      unfold bind at 1. unfold lift at 1.
      rewrite (empty_false _ Hn). simpl.
      rewrite (send_task_push_ok codec connectionID _ nymID _ _ Hc Ht Hn)
        by exact Hvalid.
      done.
    + unfold sent, zmq.Header, zmq.hasDivider. simpl.
      rewrite (empty_false _ Hc). done.
    + unfold sent, zmq.Body, zmq.hasDivider. simpl.
      rewrite (empty_false _ Hc). done.
  - intros Habsent. rewrite Hstart. unfold process_task_push.
    rewrite Hbody. unfold bind at 1. simpl.
    unfold bind, gets. subst taskID taskcomplete. by rewrite Habsent.
Qed.

Lemma push_handler_task_complete_witness :
  push_handler (Sample.codec (Sample.command RPCCOMMAND_ERROR) Sample.task_done)
    ["push"] Sample.waiting_agent =
    Returned tt
      (with_frontend [["C"; ""; "PUSH"; "NymX/T1/true"]]
         (with_tasks ∅ Sample.waiting_agent)) ∧
  push_handler (Sample.codec (Sample.command RPCCOMMAND_ERROR) Sample.task_done)
    ["push"] Sample.agent = Returned tt Sample.agent.
Proof.
  split.
  - destruct (push_handler_task_complete
                (Sample.codec (Sample.command RPCCOMMAND_ERROR)
                   Sample.task_done)
                ["push"] "push" Sample.waiting_agent) as [Hpresent _].
    + reflexivity.
    + apply map_Forall_singleton. simpl. repeat split; discriminate.
    + destruct (Hpresent "C" "NymX") as (Hrun & _).
      * reflexivity.
      * reflexivity.
      * rewrite Hrun. reflexivity.
  - destruct (push_handler_task_complete
                (Sample.codec (Sample.command RPCCOMMAND_ERROR)
                   Sample.task_done)
                ["push"] "push" Sample.agent) as [_ Habsent].
    + reflexivity.
    + apply map_Forall_empty.
    + apply Habsent. reflexivity.
Defined.

(** ** The configuration store *)

Lemma find_update_first (key : string) (f : pt.ptree → pt.ptree)
    (cs : list (string * pt.ptree)) :
  pt.find key (pt.update_first key f cs) = f <$> pt.find key cs.
Proof.
  induction cs as [| [k c] cs IH]; simpl; [done |].
  destruct (decide (k = key)) as [Heq | Hne].
  - rewrite !(bool_decide_eq_true_2 _ Heq). simpl.
    by rewrite (bool_decide_eq_true_2 _ Heq).
  - rewrite !(bool_decide_eq_false_2 _ Hne). simpl.
    by rewrite (bool_decide_eq_false_2 _ Hne).
Qed.

(** Reading along a path that was just written through gives the written
    node. *)
Lemma walk_path_write_at (p : list string) (f : pt.ptree → pt.ptree)
    (t : pt.ptree) :
  pt.walk_path p (pt.write_at p f t) = f <$> pt.walk_path p t.
Proof.
  revert t. induction p as [| k p IH]; intros t; simpl; [done |].
  rewrite find_update_first.
  destruct (pt.find k (pt.children t)) as [c |]; simpl; [apply IH | done].
Qed.

Lemma walk_path_app (p q : list string) (t : pt.ptree) :
  pt.walk_path (p ++ q) t = pt.walk_path p t ≫= pt.walk_path q.
Proof.
  revert t. induction p as [| k p IH]; intros t; simpl; [done |].
  destruct (pt.find k (pt.children t)) as [c |]; simpl; [apply IH | done].
Qed.

Lemma get_child_Ok (path : string) (t c : pt.ptree) :
  pt.get_child path t = Ok c ↔ pt.walk_path (pt.fragments path) t = Some c.
Proof.
  unfold pt.get_child.
  destruct (pt.walk_path (pt.fragments path) t); split; congruence.
Qed.

Lemma get_value_int64_range (t : pt.ptree) (v : Z) :
  pt.get_value_int64 t = Ok v → INT64_MIN ≤ v ≤ INT64_MAX.
Proof.
  unfold pt.get_value_int64.
  destruct (pt.read_int64 (pt.data t)) as [z |] eqn:E; [| discriminate].
  intros [= <-]. unfold pt.read_int64 in E.
  destruct (NilZero.uint_of_string _); [| discriminate].
  case_bool_decide; [| discriminate].
  destruct (pt.skip_ws _); [| discriminate]. by injection E as <-.
Qed.

(** A digit is neither white space nor a sign. *)
Lemma isdigit_plain (c : ascii) :
  pt.isdigit c = true →
  pt.isspace c = false ∧ Ascii.eqb c "-" = false ∧ Ascii.eqb c "+" = false.
Proof.
  destruct c as [[] [] [] [] [] [] [] []]; vm_compute; try discriminate;
    by intros _.
Qed.

(** The decimal form of a number holds digits only. *)
Lemma read_digits_string_of_uint (d : Decimal.uint) :
  pt.read_digits (NilEmpty.string_of_uint d)
  = (NilEmpty.string_of_uint d, "").
Proof. induction d; simpl; [done | by rewrite IHd ..]. Qed.

Lemma string_of_uint_digit (d : Decimal.uint) :
  d ≠ Decimal.Nil →
  ∃ c s, NilZero.string_of_uint d = String c s ∧ pt.isdigit c = true
         ∧ NilZero.string_of_uint d = NilEmpty.string_of_uint d.
Proof. destruct d; [done | by eexists _, _ ..]. Qed.

(** The text after the sign, when it is what [put_value] writes there. *)
Lemma read_int64_unsigned (negative : bool) (d : Decimal.uint) :
  d ≠ Decimal.Nil →
  let z := Z.of_int (if negative then Decimal.Neg d else Decimal.Pos d) in
  INT64_MIN ≤ z ≤ INT64_MAX →
  match NilZero.uint_of_string (pt.read_digits (NilZero.string_of_uint d)).1
  with
  | Some u =>
      let z := Z.of_int (if negative then Decimal.Neg u else Decimal.Pos u) in
      if bool_decide (INT64_MIN ≤ z ≤ INT64_MAX) then
        match pt.skip_ws (pt.read_digits (NilZero.string_of_uint d)).2 with
        | EmptyString => Some z
        | String _ _ => None
        end
      else None
  | None => None
  end = Some z.
Proof.
  intros Hd z Hz.
  destruct (string_of_uint_digit d Hd) as (c & s & _ & _ & E).
  assert (Hread : pt.read_digits (NilZero.string_of_uint d)
                  = (NilZero.string_of_uint d, "")).
  { rewrite E. apply read_digits_string_of_uint. }
  rewrite Hread. simpl fst; simpl snd.
  rewrite NilZero.usu by done. simpl pt.skip_ws. cbv zeta. fold z.
  by rewrite bool_decide_eq_true_2.
Qed.

Lemma read_int64_string_of_int (z : Z) :
  INT64_MIN ≤ z ≤ INT64_MAX →
  pt.read_int64 (NilZero.string_of_int (Z.to_int z)) = Some z.
Proof.
  intros Hz. rewrite <- (DecimalZ.of_to z) in Hz.
  rewrite <- (DecimalZ.of_to z) at 2.
  assert (Hshape : ∃ negative d, d ≠ Decimal.Nil ∧
            Z.to_int z = if negative : bool then Decimal.Neg d
                         else Decimal.Pos d).
  { destruct z as [| p | p]; simpl.
    - by exists false, (Decimal.D0 Decimal.Nil).
    - exists false, (Pos.to_uint p). split; [| done].
      apply DecimalPos.Unsigned.to_uint_nonnil.
    - exists true, (Pos.to_uint p). split; [| done].
      apply DecimalPos.Unsigned.to_uint_nonnil. }
  destruct Hshape as (negative & d & Hd & Ei). rewrite Ei in Hz |- *.
  destruct (string_of_uint_digit d Hd) as (c & s & E & Hc & _).
  destruct (isdigit_plain c Hc) as (Hspace & Hminus & Hplus).
  unfold pt.read_int64. destruct negative; simpl NilZero.string_of_int.
  - change (pt.read_sign (pt.skip_ws (String "-" (NilZero.string_of_uint d))))
      with (true, NilZero.string_of_uint d).
    apply (read_int64_unsigned true d Hd Hz).
  - replace (pt.read_sign (pt.skip_ws (NilZero.string_of_uint d)))
      with (false, NilZero.string_of_uint d).
    + apply (read_int64_unsigned false d Hd Hz).
    + rewrite E. simpl. by rewrite Hspace; simpl; rewrite Hminus, Hplus.
Qed.

(** What the reader takes: a sign, zeros in front, white space on either
    side, and both ends of the 64-bit range. *)
Example read_int64_accepts :
  pt.read_int64 "5" = Some 5 ∧
  pt.read_int64 "+5" = Some 5 ∧
  pt.read_int64 "-5" = Some (-5) ∧
  pt.read_int64 " 5 " = Some 5 ∧
  pt.read_int64 (String "009" (String "010" "+5" +:+ String "013" " ")) = Some 5 ∧
  pt.read_int64 "007" = Some 7 ∧
  pt.read_int64 "-0" = Some 0 ∧
  pt.read_int64 "9223372036854775807" = Some INT64_MAX ∧
  pt.read_int64 "-9223372036854775808" = Some INT64_MIN.
Proof. repeat split; vm_compute; reflexivity. Qed.

(** What it refuses: no digit, white space after the sign, text after the
    number, and a number outside the 64-bit range. *)
Example read_int64_refuses :
  pt.read_int64 "" = None ∧
  pt.read_int64 " " = None ∧
  pt.read_int64 "+" = None ∧
  pt.read_int64 "- 5" = None ∧
  pt.read_int64 "+-5" = None ∧
  pt.read_int64 "5x" = None ∧
  pt.read_int64 "5 6" = None ∧
  pt.read_int64 "5.0" = None ∧
  pt.read_int64 "0x10" = None ∧
  pt.read_int64 "many" = None ∧
  pt.read_int64 "9223372036854775808" = None ∧
  pt.read_int64 "-9223372036854775809" = None.
Proof. repeat split; vm_compute; reflexivity. Qed.

(** The decimal text [put_value] writes is read back as the same number. *)
Lemma get_put_value_int64 (z : Z) (t : pt.ptree) :
  INT64_MIN ≤ z ≤ INT64_MAX →
  pt.get_value_int64 (pt.put_value_int64 z t) = Ok z.
Proof.
  intros Hrange. unfold pt.get_value_int64, pt.put_value_int64. simpl.
  by rewrite read_int64_string_of_int.
Qed.

(** What [increment_config_value] does when the entry can be read. *)
Lemma increment_config_value_run (sectionName entryName : string) (v : Z)
    (a : Agent) :
  get_int sectionName entryName (config_ a) = Ok v →
  let config :=
    pt.write_at (pt.fragments sectionName ++ pt.fragments entryName)
      (pt.put_value_int64 (int64_wrap (v + 1))) (config_ a) in
  increment_config_value sectionName entryName a =
    Returned tt (with_settings_file (Some config) (with_config config a)).
Proof.
  intros H config. unfold get_int in H.
  destruct (pt.get_child sectionName (config_ a)) as [section |] eqn:Hs;
    [| discriminate].
  simpl in H.
  destruct (pt.get_child entryName section) as [entry |] eqn:He;
    [| discriminate].
  simpl in H.
  unfold increment_config_value, bind, gets, lift, modify, save_config.
  by rewrite Hs, He, H.
Qed.

Lemma get_int_write_at (sectionName entryName : string) (v z : Z)
    (config : pt.ptree) :
  get_int sectionName entryName config = Ok v →
  INT64_MIN ≤ z ≤ INT64_MAX →
  get_int sectionName entryName
    (pt.write_at (pt.fragments sectionName ++ pt.fragments entryName)
       (pt.put_value_int64 z) config) = Ok z.
Proof.
  unfold get_int. intros H Hz.
  destruct (pt.get_child sectionName config) as [section |] eqn:Hs;
    [| discriminate].
  simpl in H.
  destruct (pt.get_child entryName section) as [entry |] eqn:He;
    [| discriminate].
  clear H. apply get_child_Ok in Hs, He.
  set (f := pt.put_value_int64 z).
  set (ps := pt.fragments sectionName) in *.
  set (pe := pt.fragments entryName) in *.
  assert (Hwalk : pt.walk_path (ps ++ pe) (pt.write_at (ps ++ pe) f config)
                  = Some (f entry)).
  { rewrite walk_path_write_at, walk_path_app, Hs. simpl. by rewrite He. }
  rewrite walk_path_app in Hwalk.
  unfold pt.get_child. fold ps. fold pe.
  destruct (pt.walk_path ps (pt.write_at (ps ++ pe) f config))
    as [section' |]; [| discriminate].
  simpl in Hwalk. simpl. rewrite Hwalk. simpl.
  by apply get_put_value_int64.
Qed.

(** C9, as the code has it.  For every section and key that hold an integer
    [v] below the largest 64-bit value, [increment_config_value] returns,
    the configuration in memory then holds [v + 1] for that key, and the
    settings file has been rewritten with that configuration before the
    return, so reading either gives the new value. *)
Theorem increment_config_value_increments (sectionName entryName : string)
    (v : Z) (a : Agent) :
  get_int sectionName entryName (config_ a) = Ok v →
  v < INT64_MAX →
  ∃ a',
    increment_config_value sectionName entryName a = Returned tt a' ∧
    get_int sectionName entryName (config_ a') = Ok (v + 1) ∧
    settings_file a' = Some (config_ a') ∧
    (∀ file, settings_file a' = Some file →
       get_int sectionName entryName file = Ok (v + 1)).
Proof.
  intros Hv Hmax.
  pose proof (increment_config_value_run _ _ _ _ Hv) as Hrun.
  simpl in Hrun.
  assert (Hmin : INT64_MIN ≤ v ≤ INT64_MAX).
  { unfold get_int in Hv.
    destruct (pt.get_child sectionName (config_ a)) as [section |];
      [| discriminate].
    simpl in Hv.
    destruct (pt.get_child entryName section); [| discriminate].
    by apply get_value_int64_range in Hv. }
  assert (Hwrap : int64_wrap (v + 1) = v + 1).
  { apply int64_wrap_small. unfold INT64_MIN, INT64_MAX in *. lia. }
  rewrite Hwrap in Hrun.
  assert (Hread : get_int sectionName entryName
            (pt.write_at (pt.fragments sectionName ++ pt.fragments entryName)
               (pt.put_value_int64 (v + 1)) (config_ a)) = Ok (v + 1)).
  { apply (get_int_write_at _ _ v); [done |].
    unfold INT64_MIN, INT64_MAX in *. lia. }
  eexists. split; [exact Hrun |]. simpl.
  split; [exact Hread |]. split; [done |].
  by intros file [= <-].
Qed.

Lemma increment_config_value_increments_witness :
  ∃ a',
    increment_config_value CONFIG_SECTION CONFIG_CLIENTS Sample.agent =
      Returned tt a' ∧
    get_int CONFIG_SECTION CONFIG_CLIENTS (config_ a') = Ok (2 + 1) ∧
    settings_file a' = Some (config_ a') ∧
    (∀ file, settings_file a' = Some file →
       get_int CONFIG_SECTION CONFIG_CLIENTS file = Ok (2 + 1)).
Proof.
  apply (increment_config_value_increments CONFIG_SECTION CONFIG_CLIENTS 2
           Sample.agent).
  - reflexivity.
  - unfold INT64_MAX. lia.
Defined.

(** C9 as stated fails at the largest 64-bit value: the key holds
    [v = 9223372036854775807], the increment returns, and the key then
    holds [-9223372036854775808], which is not [v + 1]. *)
Lemma increment_config_value_at_int64_max :
  let a := with_config Sample.full_config Sample.agent in
  let v := 9223372036854775807 in
  get_int CONFIG_SECTION CONFIG_CLIENTS (config_ a) = Ok v ∧
  ∃ a',
    increment_config_value CONFIG_SECTION CONFIG_CLIENTS a = Returned tt a' ∧
    get_int CONFIG_SECTION CONFIG_CLIENTS (config_ a') =
      Ok (-9223372036854775808) ∧
    get_int CONFIG_SECTION CONFIG_CLIENTS (config_ a') ≠ Ok (v + 1).
Proof.
  intros a v. split; [reflexivity |].
  exists (state_of (increment_config_value CONFIG_SECTION CONFIG_CLIENTS a)).
  split; [by vm_compute |]. split; [by vm_compute |].
  vm_compute. discriminate.
Qed.

(** ** What the steps of a handler leave alone *)

Section Keeps.

Context {B : Type} (f : Agent → B).

Lemma keeps_ret {A} (x : A) : keeps f (ret x).
Proof. by intros s. Qed.

Lemma keeps_lift {A} (r : result A) : keeps f (lift r).
Proof. intros s. unfold lift. by destruct r. Qed.

Lemma keeps_gets {A} (g : Agent → A) : keeps f (gets g).
Proof. by intros s. Qed.

Lemma keeps_modify (g : Agent → Agent) :
  (∀ s, f (g s) = f s) → keeps f (modify g).
Proof. intros H s. apply H. Qed.

(** The continuation needs to keep [f] only for the values the first step
    can return. *)
Lemma keeps_bind_val {A C} (c : M A) (k : A → M C) :
  keeps f c →
  (∀ s x s', c s = Returned x s' → keeps f (k x)) →
  keeps f (bind c k).
Proof.
  intros Hc Hk s. unfold bind. specialize (Hc s).
  destruct (c s) as [x s' | e s'] eqn:E; simpl in *.
  - rewrite (Hk _ _ _ E s'). exact Hc.
  - exact Hc.
Qed.

Lemma keeps_bind {A C} (c : M A) (k : A → M C) :
  keeps f c → (∀ x, keeps f (k x)) → keeps f (bind c k).
Proof. intros Hc Hk. apply keeps_bind_val; auto. Qed.

Lemma keeps_for_each {A} (body : A → M unit) (l : list A) :
  (∀ x, keeps f (body x)) → keeps f (for_each body l).
Proof.
  intros H. induction l as [| x l IH]; simpl.
  - apply keeps_ret.
  - apply keeps_bind; auto.
Qed.

End Keeps.

Ltac keeps_step :=
  first
    [ apply keeps_ret
    | apply keeps_lift
    | apply keeps_gets
    | apply keeps_modify; intros ?; reflexivity
    | apply keeps_for_each; intros ?
    | apply keeps_bind; [| intros ?] ].

Lemma associate_nym_keeps_tasks (connection : Data) (nymID : string) :
  keeps task_connection_map_ (associate_nym connection nymID).
Proof.
  unfold associate_nym. destruct (empty nymID); [keeps_step |].
  apply keeps_bind; [keeps_step |]. intros [held |]; keeps_step.
Qed.

Lemma associate_task_keeps_nyms (connection : Data) (nymID task : string) :
  keeps nym_connection_map_ (associate_task connection nymID task).
Proof. unfold associate_task. repeat keeps_step. Qed.

Lemma increment_config_value_keeps_tasks (sectionName entryName : string) :
  keeps task_connection_map_ (increment_config_value sectionName entryName).
Proof. unfold increment_config_value, save_config. repeat keeps_step. Qed.

Lemma increment_config_value_keeps_nyms (sectionName entryName : string) :
  keeps nym_connection_map_ (increment_config_value sectionName entryName).
Proof. unfold increment_config_value, save_config. repeat keeps_step. Qed.

Lemma update_clients_keeps_tasks : keeps task_connection_map_ update_clients.
Proof.
  unfold update_clients, schedule_refresh.
  keeps_step; [apply increment_config_value_keeps_tasks |].
  repeat keeps_step.
Qed.

Lemma update_servers_keeps_tasks : keeps task_connection_map_ update_servers.
Proof.
  unfold update_servers.
  keeps_step; [apply increment_config_value_keeps_tasks |].
  repeat keeps_step.
Qed.

(** The [switch] never touches the task table. *)
Lemma backend_switch_keeps_tasks (ot_ : Native) (connectionID : Data)
    (command : RPCCommand.t) (response : RPCResponse.t) :
  keeps task_connection_map_
    (backend_switch ot_ connectionID command response).
Proof.
  unfold backend_switch.
  destruct (RPCResponse.type response);
    try (destruct (first_status_is _ response));
    repeat first
      [ apply update_clients_keeps_tasks
      | apply update_servers_keeps_tasks
      | apply associate_nym_keeps_tasks
      | keeps_step ].
Qed.

(** For the kinds that own no task the [switch] leaves [taskNymID] empty. *)
Lemma backend_switch_other_kinds (ot_ : Native) (connectionID : Data)
    (command : RPCCommand.t) (response : RPCResponse.t) (s s' : Agent)
    (taskNymID : string) :
  owns_task (RPCResponse.type response) = false →
  backend_switch ot_ connectionID command response s =
    Returned taskNymID s' →
  taskNymID = "".
Proof.
  unfold backend_switch.
  destruct (RPCResponse.type response); try discriminate; intros _;
    unfold bind, ret;
    repeat match goal with
           | |- context [match ?c s with _ => _ end] => destruct (c s)
           end;
    congruence.
Qed.

(** With no nym to give, the block after the [switch] records nothing: it
    is skipped, or [associate_task] stops at its assertion. *)
Lemma backend_queue_task_no_nym (connectionID : Data)
    (response : RPCResponse.t) :
  keeps task_connection_map_ (backend_queue_task connectionID "" response).
Proof.
  unfold backend_queue_task.
  destruct (first_status_is _ response); [| keeps_step].
  case_bool_decide; [| keeps_step].
  keeps_step; [keeps_step |].
  intros s. unfold associate_task, bind, lift.
  by destruct (empty connectionID).
Qed.

(** ** The worker handler *)

Lemma at_Ok (l : list string) (i : nat) (x y : string) :
  l !! i = Some x → zmq.at_ l i = Ok y → y = x.
Proof. unfold zmq.at_. intros ->. congruence. Qed.

Lemma lift_Returned {A} (r : result A) (s s' : Agent) (x : A) :
  lift r s = Returned x s' → r = Ok x.
Proof. unfold lift. destruct r; congruence. Qed.

(** C2. Take a worker request whose command kind is none of RegisterNym,
    IssueUnitDefinition, CreateAccount, CreateCompatibleAccount, SendPayment
    and AcceptPendingPayments, the engine answering, as it does, with a
    response of the command's kind.  Then the [switch] leaves taskNymID
    empty, and the task table is the same after the handler as before it,
    whatever statuses and task entries the response carries. *)
Theorem backend_handler_other_kinds_record_no_task (ot_ : Native)
    (codec : Proto) (message : zmq.Message) (request : zmq.Frame)
    (a : Agent) :
  zmq.Body message !! 0%nat = Some request →
  let command := DataToProto_RPCCommand codec request in
  let response := RPC ot_ command in
  RPCResponse.type response = RPCCommand.type command →
  owns_task (RPCCommand.type command) = false →
  (∀ connectionID s taskNymID s',
     backend_switch ot_ connectionID command response s =
       Returned taskNymID s' →
     taskNymID = "") ∧
  task_connection_map_ (state_of (backend_handler ot_ codec message a)) =
    task_connection_map_ a.
Proof.
  intros Hrequest command response Hecho Hkind.
  assert (Hother : owns_task (RPCResponse.type response) = false)
    by (by rewrite Hecho).
  split.
  - intros connectionID s taskNymID s'.
    by apply backend_switch_other_kinds.
  - unfold backend_handler.
    apply keeps_bind; [keeps_step |]. intros _.
    apply keeps_bind_val; [keeps_step |]. intros s0 request' s0' Hat.
    apply lift_Returned in Hat.
    apply (at_Ok _ _ _ _ Hrequest) in Hat. subst request'.
    fold command. fold response.
    apply keeps_bind; [keeps_step |]. intros connectionID.
    apply keeps_bind;
      [apply keeps_for_each; intros; apply associate_nym_keeps_tasks |].
    intros _.
    apply keeps_bind_val; [apply backend_switch_keeps_tasks |].
    intros s1 taskNymID s1' Hswitch.
    apply (backend_switch_other_kinds _ _ _ _ _ _ _ Hother) in Hswitch.
    subst taskNymID.
    apply keeps_bind; [apply backend_queue_task_no_nym |].
    intros _. keeps_step.
Qed.

Lemma backend_handler_other_kinds_record_no_task_witness :
  let ot_ :=
    Sample.engine
      (Sample.response RPCCOMMAND_LISTNYMS [RPCRESPONSE_QUEUED] [] ["T1"]) in
  let codec := Sample.codec (Sample.command RPCCOMMAND_LISTNYMS) Sample.no_push in
  (∀ connectionID s taskNymID s',
     backend_switch ot_ connectionID (Sample.command RPCCOMMAND_LISTNYMS)
       (Sample.response RPCCOMMAND_LISTNYMS [RPCRESPONSE_QUEUED] [] ["T1"]) s =
       Returned taskNymID s' →
     taskNymID = "") ∧
  task_connection_map_
    (state_of (backend_handler ot_ codec Sample.worker_request Sample.agent)) =
    task_connection_map_ Sample.agent.
Proof.
  apply (backend_handler_other_kinds_record_no_task
           (Sample.engine
              (Sample.response RPCCOMMAND_LISTNYMS [RPCRESPONSE_QUEUED] []
                 ["T1"]))
           (Sample.codec (Sample.command RPCCOMMAND_LISTNYMS) Sample.no_push)
           Sample.worker_request "command" Sample.agent).
  - reflexivity.
  - reflexivity.
  - reflexivity.
Defined.

Lemma with_nyms_same (a : Agent) : with_nyms (nym_connection_map_ a) a = a.
Proof. by destruct a. Qed.

Lemma associate_nym_run (connection : Data) (nymID : string) (a : Agent) :
  associate_nym connection nymID a =
    Returned tt
      (with_nyms
         (if empty nymID then nym_connection_map_ a
          else emplace nymID connection (nym_connection_map_ a)) a).
Proof.
  unfold associate_nym. destruct (empty nymID) eqn:E.
  - by rewrite with_nyms_same.
  - unfold bind, gets, modify.
    destruct (nym_connection_map_ a !! nymID) as [held |] eqn:H; [| done].
    by rewrite (emplace_present _ _ _ _ H), with_nyms_same.
Qed.

(** A loop of [associate_nym] always returns. *)
Lemma for_each_associate_nym_run (connection : Data) (nyms : list string)
    (a : Agent) :
  for_each (associate_nym connection) nyms a =
    Returned tt
      (with_nyms (associate_all connection nyms (nym_connection_map_ a)) a).
Proof.
  revert a. induction nyms as [| n nyms IH]; intros a; simpl.
  - unfold ret, associate_all. simpl. by rewrite with_nyms_same.
  - unfold bind. rewrite associate_nym_run, IH.
    unfold associate_all. simpl. done.
Qed.


(** An entry that is in the table stays as it is. *)
Lemma associate_all_held (connection held : Data) (nyms : list string)
    (table : gmap string Data) (k : string) :
  table !! k = Some held →
  associate_all connection nyms table !! k = Some held.
Proof.
  revert table. induction nyms as [| n nyms IH]; intros table H; [done |].
  unfold associate_all in *. simpl. apply IH.
  destruct (empty n); [done |].
  destruct (decide (n = k)) as [-> | Hne].
  - by rewrite (emplace_present _ _ _ _ H).
  - by rewrite emplace_lookup_ne.
Qed.

(** A non-empty nym of the list that was not in the table is in it
    afterwards, with the connection. *)
Lemma associate_all_fresh (connection : Data) (nyms : list string)
    (table : gmap string Data) (k : string) :
  k ∈ nyms → k ≠ "" → table !! k = None →
  associate_all connection nyms table !! k = Some connection.
Proof.
  revert table. induction nyms as [| n nyms IH]; intros table Hin Hne H.
  - by apply elem_of_nil in Hin.
  - unfold associate_all in *. simpl.
    destruct (decide (n = k)) as [-> | Hnk].
    + rewrite (empty_false _ Hne).
      apply (associate_all_held connection connection).
      rewrite emplace_lookup. by rewrite H.
    + apply elem_of_cons in Hin as [-> | Hin]; [done |].
      apply IH; [done | done |].
      destruct (empty n); [done |]. by rewrite emplace_lookup_ne.
Qed.

Lemma associate_all_lookup (connection : Data) (nyms : list string)
    (table : gmap string Data) (k : string) :
  k ∈ nyms → k ≠ "" →
  associate_all connection nyms table !! k =
    Some (default connection (table !! k)).
Proof.
  intros Hin Hne. destruct (table !! k) as [held |] eqn:H; simpl.
  - by apply associate_all_held.
  - by apply associate_all_fresh.
Qed.

Lemma backend_queue_task_keeps_nyms (connectionID : Data)
    (taskNymID : string) (response : RPCResponse.t) :
  keeps nym_connection_map_
    (backend_queue_task connectionID taskNymID response).
Proof.
  unfold backend_queue_task.
  destruct (first_status_is _ response); [| keeps_step].
  case_bool_decide; [| keeps_step].
  keeps_step; [keeps_step |]. apply associate_task_keeps_nyms.
Qed.

(** The first steps of the worker handler, up to the engine call. *)
Lemma backend_handler_start (ot_ : Native) (codec : Proto)
    (message : zmq.Message) (request connectionID : zmq.Frame) (a : Agent) :
  zmq.Body message !! 0%nat = Some request →
  zmq.Body message !! 1%nat = Some connectionID →
  let command := DataToProto_RPCCommand codec request in
  let response := RPC ot_ command in
  let a1 :=
    with_nyms
      (associate_all connectionID (RPCCommand.associatenym command)
         (nym_connection_map_ a)) a in
  backend_handler ot_ codec message a =
    (taskNymID <- backend_switch ot_ connectionID command response ;;
     backend_queue_task connectionID taskNymID response ;;;
     ret (zmq.AddFrame (ProtoAsData_RPCResponse codec response)
            (zmq.ReplyFactory message))) a1.
Proof.
  intros H0 H1 command response a1.
  unfold backend_handler.
  assert (Hlen : (1 < length (zmq.Body message))%nat)
    by (by apply lookup_lt_Some in H1).
  rewrite (bool_decide_eq_true_2 _ Hlen).
  unfold zmq.at_. rewrite H0, H1.
  unfold bind at 1. simpl.
  unfold bind at 1. simpl.
  unfold bind at 1. simpl.
  unfold bind at 1. rewrite for_each_associate_nym_run.
  done.
Qed.




Lemma associate_task_run (connection : Data) (nymID task : string)
    (a : Agent) :
  connection ≠ "" → nymID ≠ "" → task ≠ "" →
  associate_task connection nymID task a =
    Returned tt
      (with_tasks
         (emplace task (connection, nymID) (task_connection_map_ a)) a).
Proof.
  intros Hc Hn Ht. unfold associate_task, bind, lift.
  by rewrite (empty_false _ Hc), (empty_false _ Hn), (empty_false _ Ht).
Qed.

Lemma associate_task_abort (connection : Data) (nymID task : string)
    (a : Agent) :
  connection = "" ∨ nymID = "" ∨ task = "" →
  associate_task connection nymID task a = Aborted AssertionFailure a.
Proof.
  intros H. unfold associate_task, bind, lift, empty.
  destruct (decide (connection = "")) as [-> | Hc]; [done |].
  rewrite (bool_decide_eq_false_2 _ Hc). simpl.
  destruct (decide (nymID = "")) as [-> | Hn]; [done |].
  rewrite (bool_decide_eq_false_2 _ Hn). simpl.
  destruct (decide (task = "")) as [-> | Ht]; [done |].
  by destruct H as [? | [? | ?]].
Qed.

(** The handler when the first status is QUEUED and a task entry is there:
    what remains after the [switch] is the call of [associate_task]. *)
Lemma backend_handler_queued (ot_ : Native) (codec : Proto)
    (message : zmq.Message) (request connectionID : zmq.Frame) (a a2 : Agent)
    (taskNymID : string) (task : RPCTask.t) :
  zmq.Body message !! 0%nat = Some request →
  zmq.Body message !! 1%nat = Some connectionID →
  let command := DataToProto_RPCCommand codec request in
  let response := RPC ot_ command in
  let a1 :=
    with_nyms
      (associate_all connectionID (RPCCommand.associatenym command)
         (nym_connection_map_ a)) a in
  first_status_is RPCRESPONSE_QUEUED response = true →
  RPCResponse.task response !! 0%nat = Some task →
  backend_switch ot_ connectionID command response a1 =
    Returned taskNymID a2 →
  backend_handler ot_ codec message a =
    (associate_task connectionID taskNymID (RPCTask.id task) ;;;
     ret (zmq.AddFrame (ProtoAsData_RPCResponse codec response)
            (zmq.ReplyFactory message))) a2 ∧
  task_connection_map_ a2 = task_connection_map_ a.
Proof.
  intros H0 H1 command response a1 Hqueued Htask Hswitch.
  pose proof (backend_handler_start ot_ codec _ _ _ a H0 H1) as Hstart.
  simpl in Hstart. fold command response a1 in Hstart.
  split.
  - rewrite Hstart. unfold bind at 1. rewrite Hswitch.
    unfold backend_queue_task. rewrite Hqueued.
    rewrite bool_decide_eq_true_2 by (by apply lookup_lt_Some in Htask).
    unfold repeated_at. rewrite Htask.
    unfold bind at 1. unfold bind at 1. simpl. done.
  - pose proof (backend_switch_keeps_tasks ot_ connectionID command
                  response a1) as Hk.
    by rewrite Hswitch in Hk.
Qed.

(** The handler when the [switch] has returned and the test in front of
    [associate_task] fails: the reply is returned without the call. *)
Lemma backend_handler_not_queued (ot_ : Native) (codec : Proto)
    (message : zmq.Message) (request connectionID : zmq.Frame) (a a2 : Agent)
    (taskNymID : string) :
  zmq.Body message !! 0%nat = Some request →
  zmq.Body message !! 1%nat = Some connectionID →
  let command := DataToProto_RPCCommand codec request in
  let response := RPC ot_ command in
  let a1 :=
    with_nyms
      (associate_all connectionID (RPCCommand.associatenym command)
         (nym_connection_map_ a)) a in
  first_status_is RPCRESPONSE_QUEUED response &&
  bool_decide (0 < length (RPCResponse.task response))%nat = false →
  backend_switch ot_ connectionID command response a1 =
    Returned taskNymID a2 →
  backend_handler ot_ codec message a =
    Returned
      (zmq.AddFrame (ProtoAsData_RPCResponse codec response)
         (zmq.ReplyFactory message)) a2 ∧
  task_connection_map_ a2 = task_connection_map_ a.
Proof.
  intros H0 H1 command response a1 Hcond Hswitch.
  pose proof (backend_handler_start ot_ codec _ _ _ a H0 H1) as Hstart.
  simpl in Hstart. fold command response a1 in Hstart.
  split.
  - rewrite Hstart. unfold bind at 1. rewrite Hswitch.
    unfold backend_queue_task.
    destruct (first_status_is RPCRESPONSE_QUEUED response); simpl in Hcond.
    + by rewrite Hcond.
    + done.
  - pose proof (backend_switch_keeps_tasks ot_ connectionID command
                  response a1) as Hk.
    by rewrite Hswitch in Hk.
Qed.

(** The handler when the [switch] aborts: it stops there, before the test
    in front of [associate_task]. *)
Lemma backend_handler_switch_aborted (ot_ : Native) (codec : Proto)
    (message : zmq.Message) (request connectionID : zmq.Frame) (a a2 : Agent)
    (e : error) :
  zmq.Body message !! 0%nat = Some request →
  zmq.Body message !! 1%nat = Some connectionID →
  let command := DataToProto_RPCCommand codec request in
  let response := RPC ot_ command in
  let a1 :=
    with_nyms
      (associate_all connectionID (RPCCommand.associatenym command)
         (nym_connection_map_ a)) a in
  backend_switch ot_ connectionID command response a1 = Aborted e a2 →
  backend_handler ot_ codec message a = Aborted e a2 ∧
  task_connection_map_ a2 = task_connection_map_ a.
Proof.
  intros H0 H1 command response a1 Hswitch.
  pose proof (backend_handler_start ot_ codec _ _ _ a H0 H1) as Hstart.
  simpl in Hstart. fold command response a1 in Hstart.
  split.
  - rewrite Hstart. unfold bind at 1. by rewrite Hswitch.
  - pose proof (backend_switch_keeps_tasks ot_ connectionID command
                  response a1) as Hk.
    by rewrite Hswitch in Hk.
Qed.

Lemma with_tasks_same (a : Agent) :
  with_tasks (task_connection_map_ a) a = a.
Proof. by destruct a. Qed.

(** C3, as the code has it, for a request that reaches the worker with its
    two body frames.  The handler calls [associate_task] with the
    connection, the taskNymID that the [switch] returned and the id of the
    first task entry exactly when the [switch] has returned, the status
    list is non-empty with first status QUEUED, and there is a task entry:
    - if the [switch] aborts, the handler aborts there, without the call;
    - if the [switch] returns and the first status is not QUEUED or there
      is no task entry, the handler returns its reply without the call;
    - otherwise what is left of the handler is the call followed by the
      reply.  The call stops the handler at its assertion when the
      connection, the nym or the task id is empty; it inserts the entry
      when all three are non-empty and the task id has no entry yet; and
      it leaves the table alone when the task id has an entry already.
    So the task table after the handler differs from the one before
    exactly when the first status is QUEUED, there is a task entry, the
    [switch] has returned a nym, the connection, that nym and the id of
    the first task entry are non-empty, and the table has no entry for
    that id; in every other case the task table is as it was. *)
Theorem backend_handler_task_association (ot_ : Native) (codec : Proto)
    (message : zmq.Message) (request connectionID : zmq.Frame) (a : Agent) :
  zmq.Body message !! 0%nat = Some request →
  zmq.Body message !! 1%nat = Some connectionID →
  let command := DataToProto_RPCCommand codec request in
  let response := RPC ot_ command in
  let a1 :=
    with_nyms
      (associate_all connectionID (RPCCommand.associatenym command)
         (nym_connection_map_ a)) a in
  let switch := backend_switch ot_ connectionID command response a1 in
  let outcome := backend_handler ot_ codec message a in
  let reply :=
    zmq.AddFrame (ProtoAsData_RPCResponse codec response)
      (zmq.ReplyFactory message) in
  let tasks := task_connection_map_ a in
  (∀ e a2,
     switch = Aborted e a2 →
     outcome = Aborted e a2 ∧ task_connection_map_ a2 = tasks) ∧
  (∀ taskNymID a2,
     switch = Returned taskNymID a2 →
     first_status_is RPCRESPONSE_QUEUED response &&
     bool_decide (0 < length (RPCResponse.task response))%nat = false →
     outcome = Returned reply a2 ∧ task_connection_map_ a2 = tasks) ∧
  (∀ taskNymID a2 task,
     switch = Returned taskNymID a2 →
     first_status_is RPCRESPONSE_QUEUED response = true →
     RPCResponse.task response !! 0%nat = Some task →
     let taskID := RPCTask.id task in
     outcome =
       (associate_task connectionID taskNymID taskID ;;; ret reply) a2 ∧
     task_connection_map_ a2 = tasks ∧
     (connectionID = "" ∨ taskNymID = "" ∨ taskID = "" →
        outcome = Aborted AssertionFailure a2) ∧
     (connectionID ≠ "" ∧ taskNymID ≠ "" ∧ taskID ≠ "" →
        (tasks !! taskID = None →
           outcome =
             Returned reply
               (with_tasks (<[taskID := (connectionID, taskNymID)]> tasks)
                  a2)) ∧
        (is_Some (tasks !! taskID) → outcome = Returned reply a2))) ∧
  (task_connection_map_ (state_of outcome) ≠ tasks ↔
     first_status_is RPCRESPONSE_QUEUED response = true ∧
     ∃ task taskNymID,
       RPCResponse.task response !! 0%nat = Some task ∧
       value_of switch = Some taskNymID ∧
       connectionID ≠ "" ∧ taskNymID ≠ "" ∧ RPCTask.id task ≠ "" ∧
       tasks !! RPCTask.id task = None).
Proof.
  intros H0 H1 command response a1 switch outcome reply tasks.
  assert (Hcall : ∀ taskNymID a2 task,
    switch = Returned taskNymID a2 →
    first_status_is RPCRESPONSE_QUEUED response = true →
    RPCResponse.task response !! 0%nat = Some task →
    let taskID := RPCTask.id task in
    outcome =
      (associate_task connectionID taskNymID taskID ;;; ret reply) a2 ∧
    task_connection_map_ a2 = tasks ∧
    (connectionID = "" ∨ taskNymID = "" ∨ taskID = "" →
       outcome = Aborted AssertionFailure a2) ∧
    (connectionID ≠ "" ∧ taskNymID ≠ "" ∧ taskID ≠ "" →
       outcome =
         Returned reply
           (with_tasks (emplace taskID (connectionID, taskNymID) tasks)
              a2))).
  { intros taskNymID a2 task Hswitch Hqueued Htask taskID.
    destruct (backend_handler_queued ot_ codec message request connectionID
                a a2 taskNymID task H0 H1 Hqueued Htask Hswitch)
      as [Hrun Htasks].
    fold outcome reply in Hrun. fold tasks in Htasks.
    split; [exact Hrun |]. split; [exact Htasks |]. split.
    - intros Hempty. rewrite Hrun. unfold bind.
      by rewrite (associate_task_abort _ _ _ _ Hempty).
    - intros (Hc & Hn & Ht). rewrite Hrun. unfold bind.
      rewrite (associate_task_run _ _ _ _ Hc Hn Ht).
      by rewrite Htasks. }
  split; [| split; [| split]].
  - intros e a2 Hswitch.
    exact (backend_handler_switch_aborted ot_ codec message request
             connectionID a a2 e H0 H1 Hswitch).
  - intros taskNymID a2 Hswitch Hcond.
    exact (backend_handler_not_queued ot_ codec message request
             connectionID a a2 taskNymID H0 H1 Hcond Hswitch).
  - intros taskNymID a2 task Hswitch Hqueued Htask taskID.
    destruct (Hcall taskNymID a2 task Hswitch Hqueued Htask)
      as (Hrun & Htasks & Hempty & Hfull).
    split; [exact Hrun |]. split; [exact Htasks |].
    split; [exact Hempty |].
    intros Hne. specialize (Hfull Hne). split.
    + intros Hnone. rewrite Hfull. by rewrite (emplace_absent _ _ _ Hnone).
    + intros [held Hheld]. rewrite Hfull.
      rewrite (emplace_present _ _ _ _ Hheld).
      rewrite <- Htasks. by rewrite with_tasks_same.
  - destruct switch as [taskNymID a2 | e a2] eqn:Hswitch.
    + destruct (first_status_is RPCRESPONSE_QUEUED response) eqn:Hqueued;
        [destruct (RPCResponse.task response !! 0%nat) as [task |] eqn:Htask |].
      * destruct (Hcall taskNymID a2 task eq_refl eq_refl eq_refl)
          as (_ & Htasks & Hempty & Hfull).
        destruct (decide (connectionID = "")) as [Hc | Hc];
          [| destruct (decide (taskNymID = "")) as [Hn | Hn];
             [| destruct (decide (RPCTask.id task = "")) as [Ht | Ht]]].
        1-3: rewrite Hempty by auto; simpl; rewrite Htasks;
          split; [done |];
          intros (_ & task' & nym' & [= <-] & [= <-] & ? & ? & ? & _); done.
        rewrite Hfull by done. simpl.
        destruct (tasks !! RPCTask.id task) as [held |] eqn:Hheld.
        -- rewrite (emplace_present _ _ _ _ Hheld). split; [done |].
           intros (_ & task' & nym' & [= <-] & _ & _ & _ & _ & Hnone).
           congruence.
        -- rewrite (emplace_absent _ _ _ Hheld). split.
           ++ intros _. split; [done |]. by exists task, taskNymID.
           ++ intros _ E.
              apply (f_equal (.!! RPCTask.id task)) in E.
              rewrite lookup_insert_eq in E. congruence.
      * destruct (backend_handler_not_queued ot_ codec message request
                    connectionID a a2 taskNymID H0 H1) as [Hrun Htasks].
        { change (first_status_is RPCRESPONSE_QUEUED response &&
                  bool_decide (0 < length (RPCResponse.task response))%nat
                  = false).
          rewrite Hqueued. simpl.
          apply bool_decide_eq_false_2. intros Hlen.
          apply lookup_lt_is_Some_2 in Hlen. destruct Hlen as [? Hlen].
          congruence. }
        { exact Hswitch. }
        fold outcome in Hrun. rewrite Hrun. simpl. split; [done |].
        by intros (_ & task' & nym' & [=] & _).
      * destruct (backend_handler_not_queued ot_ codec message request
                    connectionID a a2 taskNymID H0 H1) as [Hrun Htasks].
        { change (first_status_is RPCRESPONSE_QUEUED response &&
                  bool_decide (0 < length (RPCResponse.task response))%nat
                  = false).
          by rewrite Hqueued. }
        { exact Hswitch. }
        fold outcome in Hrun. rewrite Hrun. simpl. split; [done |].
        by intros ([=] & _).
    + destruct (backend_handler_switch_aborted ot_ codec message request
                  connectionID a a2 e H0 H1 Hswitch) as [Hrun Htasks].
      fold outcome in Hrun. rewrite Hrun. simpl. split; [done |].
      by intros (_ & task' & nym' & _ & [=] & _).
Qed.

Lemma backend_handler_task_association_witness :
  let response :=
    Sample.response RPCCOMMAND_SENDPAYMENT [RPCRESPONSE_QUEUED] [] ["T1"] in
  backend_handler (Sample.engine response)
    (Sample.codec (Sample.command RPCCOMMAND_SENDPAYMENT) Sample.no_push)
    Sample.worker_request Sample.agent =
    Returned ["C"; ""; "response"]
      (with_tasks {[ "T1" := ("C", "NymX") ]} Sample.agent).
Proof.
  intros response.
  destruct (backend_handler_task_association (Sample.engine response)
              (Sample.codec (Sample.command RPCCOMMAND_SENDPAYMENT)
                 Sample.no_push)
              Sample.worker_request "command" "C" Sample.agent)
    as (_ & _ & Hqueued & _).
  - reflexivity.
  - reflexivity.
  - destruct (Hqueued "NymX" Sample.agent (RPCTask.Build_t "T1"))
      as (_ & _ & _ & Hfull).
    + reflexivity.
    + reflexivity.
    + reflexivity.
    + destruct Hfull as [Hnew _].
      * repeat split; discriminate.
      * rewrite Hnew; reflexivity.
Defined.

(** C3 as stated fails on a response whose second status is QUEUED: a
    status of kind QUEUED is in the list and there is a task entry, the
    connection, the owner and the task id are non-empty, and yet the
    handler returns with no entry for the task: the task table is as it
    was. *)
Lemma backend_handler_queued_second_status :
  let response :=
    Sample.response RPCCOMMAND_REGISTERNYM
      [RPCRESPONSE_SUCCESS; RPCRESPONSE_QUEUED] [] ["T1"] in
  let outcome :=
    backend_handler (Sample.engine response)
      (Sample.codec (Sample.command RPCCOMMAND_REGISTERNYM) Sample.no_push)
      Sample.worker_request Sample.agent in
  some_status_is RPCRESPONSE_QUEUED response = true ∧
  RPCTask.id <$> RPCResponse.task response = ["T1"] ∧
  RPCCommand.owner (Sample.command RPCCOMMAND_REGISTERNYM) = "NymX" ∧
  value_of outcome = Some ["C"; ""; "response"] ∧
  task_connection_map_ (state_of outcome) !! "T1" = None ∧
  task_connection_map_ (state_of outcome) = task_connection_map_ Sample.agent.
Proof. by vm_compute. Qed.

(** For a kind that owns no task, a response whose first status is QUEUED
    and that carries a task entry makes the handler stop at the assertion
    of [associate_task]: the nym it is given is empty. *)
Lemma backend_handler_other_kinds_queued_aborts (ot_ : Native)
    (codec : Proto) (message : zmq.Message) (request connectionID : zmq.Frame)
    (a : Agent) :
  zmq.Body message !! 0%nat = Some request →
  zmq.Body message !! 1%nat = Some connectionID →
  let command := DataToProto_RPCCommand codec request in
  let response := RPC ot_ command in
  owns_task (RPCResponse.type response) = false →
  first_status_is RPCRESPONSE_QUEUED response = true →
  RPCResponse.task response ≠ [] →
  ∃ a', backend_handler ot_ codec message a = Aborted AssertionFailure a' ∧
        task_connection_map_ a' = task_connection_map_ a.
Proof.
  intros H0 H1 command response Hkind Hqueued Htask.
  destruct (RPCResponse.task response) as [| task tasks] eqn:Et; [done |].
  set (a1 := with_nyms
               (associate_all connectionID (RPCCommand.associatenym command)
                  (nym_connection_map_ a)) a) in *.
  assert (Hsuccess : first_status_is RPCRESPONSE_SUCCESS response = false).
  { unfold first_status_is in *.
    destruct (RPCResponse.status response) as [| st sts]; [done |].
    simpl in *. apply bool_decide_eq_true in Hqueued.
    rewrite <- Hqueued. done. }
  assert (Hswitch : ∃ a2, backend_switch ot_ connectionID command response a1
                          = Returned "" a2).
  { unfold backend_switch.
    destruct (RPCResponse.type response); try discriminate;
      try rewrite Hsuccess; unfold bind, ret;
      try rewrite for_each_associate_nym_run; eauto. }
  destruct Hswitch as [a2 Hswitch].
  destruct (backend_handler_queued ot_ codec message request connectionID
              a a2 "" task H0 H1 Hqueued) as [Hrun Htasks].
  { change (RPCResponse.task response !! 0%nat = Some task).
    by rewrite Et. }
  { exact Hswitch. }
  exists a2. split; [| exact Htasks].
  rewrite Hrun. unfold bind.
  rewrite associate_task_abort; auto.
Qed.

(** ** Invariants of the association tables *)

Section Preserves.

Context (P : Agent → Prop).

Lemma preserves_ret {A} (x : A) : preserves P (ret x).
Proof. by intros s. Qed.

Lemma preserves_lift {A} (r : result A) : preserves P (lift r).
Proof. intros s. unfold lift. by destruct r. Qed.

Lemma preserves_gets {A} (g : Agent → A) : preserves P (gets g).
Proof. by intros s. Qed.

Lemma preserves_bind {A C} (c : M A) (k : A → M C) :
  preserves P c → (∀ x, preserves P (k x)) → preserves P (bind c k).
Proof.
  intros Hc Hk s Hs. unfold bind. specialize (Hc s Hs).
  destruct (c s) as [x s' | e s']; simpl in *; [by apply Hk | done].
Qed.

Lemma preserves_for_each {A} (body : A → M unit) (l : list A) :
  (∀ x, preserves P (body x)) → preserves P (for_each body l).
Proof.
  intros H. induction l as [| x l IH]; simpl.
  - apply preserves_ret.
  - apply preserves_bind; auto.
Qed.

End Preserves.

Lemma preserves_of_keeps {A B} (f : Agent → B) (Q : B → Prop) (c : M A) :
  keeps f c → preserves (fun s => Q (f s)) c.
Proof. intros H s Hs. by rewrite (H s). Qed.

Lemma task_table_wf_empty : task_table_wf ∅.
Proof. apply map_Forall_empty. Qed.

Lemma task_table_wf_emplace (tasks : gmap string (Data * string))
    (task : string) (connection : Data) (nymID : string) :
  task ≠ "" → connection ≠ "" → nymID ≠ "" →
  task_table_wf tasks →
  task_table_wf (emplace task (connection, nymID) tasks).
Proof.
  intros Ht Hc Hn Hwf. unfold emplace.
  destruct (tasks !! task); [done |].
  by apply map_Forall_insert_2.
Qed.

Lemma task_table_wf_delete (tasks : gmap string (Data * string))
    (task : string) :
  task_table_wf tasks → task_table_wf (delete task tasks).
Proof. apply map_Forall_delete. Qed.

Lemma associate_task_wf (connection : Data) (nymID task : string) :
  preserves (fun s => task_table_wf (task_connection_map_ s))
    (associate_task connection nymID task).
Proof.
  intros s Hs.
  destruct (decide (connection = "")) as [Hc | Hc];
    [by rewrite associate_task_abort by auto |].
  destruct (decide (nymID = "")) as [Hn | Hn];
    [by rewrite associate_task_abort by auto |].
  destruct (decide (task = "")) as [Ht | Ht];
    [by rewrite associate_task_abort by auto |].
  rewrite associate_task_run by done. simpl.
  by apply task_table_wf_emplace.
Qed.

Lemma send_task_push_keeps_tasks (codec : Proto) (connectionID : Data)
    (taskID nymID : string) (result : bool) :
  keeps task_connection_map_
    (send_task_push codec connectionID taskID nymID result).
Proof. unfold send_task_push, frontend_Send. repeat keeps_step. Qed.

(** The task table holds only what [associate_task] let in: the property
    holds of the empty table, and every handler preserves it. *)
Lemma backend_handler_wf (ot_ : Native) (codec : Proto)
    (message : zmq.Message) :
  preserves (fun s => task_table_wf (task_connection_map_ s))
    (backend_handler ot_ codec message).
Proof.
  unfold backend_handler.
  repeat first
    [ apply preserves_lift
    | apply preserves_ret
    | apply preserves_bind; [| intros ?] ].
  - apply preserves_for_each. intros nymID.
    apply (preserves_of_keeps task_connection_map_ task_table_wf).
    apply associate_nym_keeps_tasks.
  - apply (preserves_of_keeps task_connection_map_ task_table_wf).
    apply backend_switch_keeps_tasks.
  - unfold backend_queue_task.
    destruct (first_status_is _ _); [| apply preserves_ret].
    case_bool_decide; [| apply preserves_ret].
    apply preserves_bind; [apply preserves_lift | intros task].
    apply associate_task_wf.
Qed.

Lemma push_handler_wf (codec : Proto) (message : zmq.Message) :
  preserves (fun s => task_table_wf (task_connection_map_ s))
    (push_handler codec message).
Proof.
  unfold push_handler. case_bool_decide.
  - unfold process_task_push.
    apply preserves_bind; [apply preserves_lift | intros payload].
    apply preserves_bind; [apply preserves_gets | intros [[c n] |]];
      [| apply preserves_ret].
    apply preserves_bind.
    { intros s Hs. simpl. by apply task_table_wf_delete. }
    intros _. apply preserves_bind; [apply preserves_lift | intros _].
    apply (preserves_of_keeps task_connection_map_ task_table_wf).
    apply send_task_push_keeps_tasks.
  - apply (preserves_of_keeps task_connection_map_ task_table_wf).
    case_bool_decide; [keeps_step |].
    unfold frontend_Send.
    apply keeps_bind; [keeps_step |]. intros nymID.
    apply keeps_bind; [keeps_step |]. intros payload.
    apply keeps_bind; [keeps_step |]. intros instance.
    apply keeps_bind; [keeps_step |]. intros [connection |];
      repeat keeps_step.
Qed.

Lemma frontend_handler_wf (message : zmq.Message) :
  preserves (fun s => task_table_wf (task_connection_map_ s))
    (frontend_handler message).
Proof.
  apply (preserves_of_keeps task_connection_map_ task_table_wf).
  unfold frontend_handler, internal_Send.
  keeps_step; [keeps_step |].
  case_bool_decide; repeat keeps_step.
Qed.

Lemma internal_handler_wf (message : zmq.Message) :
  preserves (fun s => task_table_wf (task_connection_map_ s))
    (internal_handler message).
Proof.
  apply (preserves_of_keeps task_connection_map_ task_table_wf).
  unfold internal_handler, frontend_Send. keeps_step.
Qed.

(** Once a nym is associated with a connection, [associate_nym] never
    changes or removes the association. *)
Lemma associate_nym_permanent (connection held : Data) (nymID n : string) :
  preserves (fun s => nym_connection_map_ s !! n = Some held)
    (associate_nym connection nymID).
Proof.
  intros s Hs. rewrite associate_nym_run. simpl.
  destruct (empty nymID); [done |].
  destruct (decide (nymID = n)) as [-> | Hne].
  - by rewrite (emplace_present _ _ _ _ Hs).
  - by rewrite emplace_lookup_ne.
Qed.

Lemma update_clients_keeps_nyms : keeps nym_connection_map_ update_clients.
Proof.
  unfold update_clients, schedule_refresh.
  keeps_step; [apply increment_config_value_keeps_nyms |].
  repeat keeps_step.
Qed.

Lemma update_servers_keeps_nyms : keeps nym_connection_map_ update_servers.
Proof.
  unfold update_servers.
  keeps_step; [apply increment_config_value_keeps_nyms |].
  repeat keeps_step.
Qed.

(** No handler removes or redirects a nym association. *)
Lemma backend_handler_nym_permanent (ot_ : Native) (codec : Proto)
    (message : zmq.Message) (n : string) (held : Data) :
  preserves (fun s => nym_connection_map_ s !! n = Some held)
    (backend_handler ot_ codec message).
Proof.
  pose (Q := fun table : gmap string Data => table !! n = Some held).
  unfold backend_handler.
  repeat first
    [ apply preserves_lift
    | apply preserves_ret
    | apply preserves_bind; [| intros ?] ].
  - apply preserves_for_each. intros nymID. apply associate_nym_permanent.
  - unfold backend_switch.
    destruct (RPCResponse.type _);
      try (destruct (first_status_is _ _));
      repeat first
        [ apply preserves_lift
        | apply preserves_ret
        | apply (preserves_of_keeps nym_connection_map_ Q),
            update_clients_keeps_nyms
        | apply (preserves_of_keeps nym_connection_map_ Q),
            update_servers_keeps_nyms
        | apply preserves_for_each; intros ?; apply associate_nym_permanent
        | apply preserves_bind; [| intros ?] ].
  - apply (preserves_of_keeps nym_connection_map_ Q).
    apply backend_queue_task_keeps_nyms.
Qed.

Lemma push_handler_keeps_nyms (codec : Proto) (message : zmq.Message) :
  keeps nym_connection_map_ (push_handler codec message).
Proof.
  unfold push_handler. case_bool_decide.
  - unfold process_task_push.
    apply keeps_bind; [keeps_step |]. intros payload.
    apply keeps_bind; [keeps_step |]. intros [[connection nymID] |];
      [| keeps_step].
    unfold send_task_push, frontend_Send. repeat keeps_step.
  - case_bool_decide; [keeps_step |].
    unfold frontend_Send.
    apply keeps_bind; [keeps_step |]. intros nymID.
    apply keeps_bind; [keeps_step |]. intros payload.
    apply keeps_bind; [keeps_step |]. intros instance.
    apply keeps_bind; [keeps_step |]. intros [connection |];
      repeat keeps_step.
Qed.

Lemma frontend_handler_keeps_nyms (message : zmq.Message) :
  keeps nym_connection_map_ (frontend_handler message).
Proof.
  unfold frontend_handler, internal_Send.
  keeps_step; [keeps_step |].
  case_bool_decide; repeat keeps_step.
Qed.

(** ** The nym-addressed push *)

(** A push with a three-frame body [nymID; payload; instance] goes to the
    connection of the nym as ["PUSH"; payload; instance]; for a nym without
    a connection nothing is sent. *)
Lemma push_handler_nym_event (codec : Proto) (message : zmq.Message)
    (nymID payload instance : zmq.Frame) (a : Agent) :
  zmq.Body message = [nymID; payload; instance] →
  (∀ connection,
     nym_connection_map_ a !! nymID = Some connection →
     connection ≠ "" →
     push_handler codec message a =
       Returned tt
         (with_frontend
            (frontend_ a ++ [[connection; ""; "PUSH"; payload; instance]])
            a)) ∧
  (nym_connection_map_ a !! nymID = None →
     push_handler codec message a = Returned tt a).
Proof.
  intros Hbody. unfold push_handler. rewrite Hbody. simpl.
  unfold bind, lift, gets. simpl. split.
  - intros connection Hfound Hne. rewrite Hfound.
    by rewrite (instantiate_push_ok _ Hne).
  - by intros ->.
Qed.

(** ** The nym that owns the outcome of a task *)

(** RegisterNym, IssueUnitDefinition, CreateAccount and
    CreateCompatibleAccount take the owner named by the command. *)
Lemma backend_switch_owner (ot_ : Native) (connectionID : Data)
    (command : RPCCommand.t) (response : RPCResponse.t) (s : Agent) :
  RPCResponse.type response ∈
    [RPCCOMMAND_REGISTERNYM; RPCCOMMAND_ISSUEUNITDEFINITION;
     RPCCOMMAND_CREATEACCOUNT; RPCCOMMAND_CREATECOMPATIBLEACCOUNT] →
  backend_switch ot_ connectionID command response s =
    Returned (RPCCommand.owner command) s.
Proof.
  intros Hkind. unfold backend_switch.
  repeat (apply elem_of_cons in Hkind as [-> | Hkind]; [done |]).
  by apply elem_of_nil in Hkind.
Qed.

(** A queued SendPayment takes the owner of the source account, looked up
    in the client that the session number designates. *)
Lemma backend_switch_send_payment (ot_ : Native) (connectionID : Data)
    (command : RPCCommand.t) (response : RPCResponse.t) (s : Agent)
    (index : Z) :
  RPCResponse.type response = RPCCOMMAND_SENDPAYMENT →
  first_status_is RPCRESPONSE_QUEUED response = true →
  session_to_client_index (RPCCommand.session command) = Ok index →
  backend_switch ot_ connectionID command response s =
    Returned
      (AccountOwner ot_ index
         (SendPayment.sourceaccount (RPCCommand.sendpayment command))) s.
Proof.
  intros Hkind Hqueued Hindex. unfold backend_switch.
  rewrite Hkind, Hqueued. unfold bind, lift. by rewrite Hindex.
Qed.

(** A queued AcceptPendingPayments takes the owner of the destination
    account of its first entry. *)
Lemma backend_switch_accept_pending_payments (ot_ : Native)
    (connectionID : Data) (command : RPCCommand.t) (response : RPCResponse.t)
    (s : Agent) (payment : AcceptPendingPayment.t) (index : Z) :
  RPCResponse.type response = RPCCOMMAND_ACCEPTPENDINGPAYMENTS →
  first_status_is RPCRESPONSE_QUEUED response = true →
  RPCCommand.acceptpendingpayment command !! 0%nat = Some payment →
  session_to_client_index (RPCCommand.session command) = Ok index →
  backend_switch ot_ connectionID command response s =
    Returned
      (AccountOwner ot_ index
         (AcceptPendingPayment.destinationaccount payment)) s.
Proof.
  intros Hkind Hqueued Hpayment Hindex. unfold backend_switch.
  rewrite Hkind, Hqueued. unfold bind, lift, repeated_at.
  by rewrite Hpayment, Hindex.
Qed.

(** ** The scenarios of the design document, run on the embedding *)

(** Add client session: the response reports SUCCESS, the persisted
    [clients] counter goes from 2 to 3 in memory and on disk, and a refresh
    is scheduled for the new index 2. *)
Example scenario_add_client_session :
  let response :=
    Sample.response RPCCOMMAND_ADDCLIENTSESSION [RPCRESPONSE_SUCCESS] [] [] in
  let a' :=
    state_of
      (backend_handler (Sample.engine response)
         (Sample.codec (Sample.command RPCCOMMAND_ADDCLIENTSESSION)
            Sample.no_push)
         Sample.worker_request Sample.agent) in
  get_int CONFIG_SECTION CONFIG_CLIENTS (config_ a') = Ok 3 ∧
  settings_file a' = Some (config_ a') ∧
  clients_ a' = 3 ∧
  refresh_ a' = [2].
Proof. by vm_compute. Qed.

(** Create nym then push: the response returns ["N1"] to connection ["C"];
    the later push [["N1"; "hello"; "inst-0"]] reaches ["C"] as
    [["PUSH"; "hello"; "inst-0"]]. *)
Example scenario_create_nym_then_push :
  let response :=
    Sample.response RPCCOMMAND_CREATENYM [RPCRESPONSE_SUCCESS] ["N1"] [] in
  let codec :=
    Sample.codec (Sample.command RPCCOMMAND_CREATENYM) Sample.no_push in
  let a1 :=
    state_of
      (backend_handler (Sample.engine response) codec Sample.worker_request
         Sample.agent) in
  let a2 := state_of (push_handler codec ["N1"; "hello"; "inst-0"] a1) in
  frontend_ a2 = [["C"; ""; "PUSH"; "hello"; "inst-0"]] ∧
  zmq.Header ["C"; ""; "PUSH"; "hello"; "inst-0"] = ["C"] ∧
  zmq.Body ["C"; ""; "PUSH"; "hello"; "inst-0"] = ["PUSH"; "hello"; "inst-0"].
Proof. by vm_compute. Qed.

(** Send payment task: session 4 is client 2, whose account ["A"] belongs
    to ["NymX"]; the response is QUEUED with task ["T1"]; the completion of
    ["T1"] is pushed to ["C"] for ["NymX"], and the association is gone. *)
Example scenario_send_payment_task :
  let response :=
    Sample.response RPCCOMMAND_SENDPAYMENT [RPCRESPONSE_QUEUED] [] ["T1"] in
  let codec :=
    Sample.codec (Sample.command RPCCOMMAND_SENDPAYMENT) Sample.task_done in
  let a1 :=
    state_of
      (backend_handler (Sample.engine response) codec Sample.worker_request
         Sample.agent) in
  let a2 := state_of (push_handler codec ["completion"] a1) in
  session_to_client_index 4 = Ok 2 ∧
  task_connection_map_ a1 !! "T1" = Some ("C", "NymX") ∧
  frontend_ a2 = [["C"; ""; "PUSH"; "NymX/T1/true"]] ∧
  task_connection_map_ a2 !! "T1" = None.
Proof. by vm_compute. Qed.

(** Push for an unknown task: no frontend traffic. *)
Example scenario_unknown_task :
  let codec :=
    Sample.codec (Sample.command RPCCOMMAND_ERROR) Sample.task_done in
  push_handler codec ["completion"] Sample.agent = Returned tt Sample.agent.
Proof. by vm_compute. Qed.

(** Bad auth: a Curve request with a key other than the configured one is
    answered with AuthFailure. *)
Example scenario_bad_auth :
  zap_handler (Sample.engine (Sample.response RPCCOMMAND_ERROR [] [] []))
    Sample.agent
    {| zap.Mechanism_ := zap.Curve; zap.Credentials := ["wrong-key"] |} =
  Ok {| zap.request :=
          {| zap.Mechanism_ := zap.Curve; zap.Credentials := ["wrong-key"] |};
        zap.Code := zap.AuthFailure;
        zap.StatusText := "Incorrect pubkey" |}.
Proof. reflexivity. Qed.

(** Session classifier precondition: session 3 fails the assertion. *)
Example scenario_odd_session :
  session_to_client_index 3 = Err AssertionFailure.
Proof. reflexivity. Qed.

(** * Further properties of [Agent.cpp] *)

(** ** The task table *)

(** X1. [associate_task] inserts with [emplace]: when the task id already
    has an entry, a call with valid arguments returns and leaves the agent,
    and so the earlier entry, as it was; the new connection and nym are
    not recorded. *)
Theorem associate_task_keeps_first (connection : Data) (nymID task : string)
    (held : Data * string) (a : Agent) :
  connection ≠ "" → nymID ≠ "" → task ≠ "" →
  task_connection_map_ a !! task = Some held →
  associate_task connection nymID task a = Returned tt a ∧
  task_connection_map_ (state_of (associate_task connection nymID task a))
    !! task = Some held.
Proof.
  intros Hc Hn Ht Hheld.
  assert (Hrun : associate_task connection nymID task a = Returned tt a).
  { rewrite associate_task_run by done.
    by rewrite (emplace_present _ _ _ _ Hheld), with_tasks_same. }
  by rewrite Hrun.
Qed.

Lemma associate_task_keeps_first_witness :
  associate_task "C2" "NymY" "T1" Sample.waiting_agent =
    Returned tt Sample.waiting_agent ∧
  task_connection_map_
    (state_of (associate_task "C2" "NymY" "T1" Sample.waiting_agent))
    !! "T1" = Some ("C", "NymX").
Proof.
  apply (associate_task_keeps_first "C2" "NymY" "T1" ("C", "NymX")
           Sample.waiting_agent); try discriminate.
  reflexivity.
Defined.

(** X2. [associate_task] enforces its three assertions: it aborts, with
    the agent untouched, exactly when the connection, the nym or the task
    id is empty; with all three non-empty it returns, and the task id then
    has an entry. *)
Theorem associate_task_asserts (connection : Data) (nymID task : string)
    (a : Agent) :
  (associate_task connection nymID task a = Aborted AssertionFailure a ↔
     connection = "" ∨ nymID = "" ∨ task = "") ∧
  (connection ≠ "" ∧ nymID ≠ "" ∧ task ≠ "" ↔
     ∃ a', associate_task connection nymID task a = Returned tt a' ∧
           is_Some (task_connection_map_ a' !! task)).
Proof.
  destruct (decide (connection = "")) as [Hc | Hc];
    [| destruct (decide (nymID = "")) as [Hn | Hn];
       [| destruct (decide (task = "")) as [Ht | Ht]]].
  1-3: rewrite associate_task_abort by auto;
       split; [split; auto |];
       split; [intros (? & ? & ?); done | intros (a' & [=] & _)].
  rewrite associate_task_run by done. split.
  - split; [discriminate | intros [? | [? | ?]]; done].
  - split; [| done]. intros _. eexists. split; [done |]. simpl.
    rewrite emplace_lookup. eauto.
Qed.

(** ** Invariants of a run *)

Lemma internal_handler_keeps_nyms (message : zmq.Message) :
  keeps nym_connection_map_ (internal_handler message).
Proof. unfold internal_handler, frontend_Send. keeps_step. Qed.

(** A property of the nym table that [associate_nym] preserves is
    preserved by the worker handler. *)
Lemma backend_handler_preserves_nyms (Q : gmap string Data → Prop)
    (ot_ : Native) (codec : Proto) (message : zmq.Message) :
  (∀ connection nymID,
     preserves (fun s => Q (nym_connection_map_ s))
       (associate_nym connection nymID)) →
  preserves (fun s => Q (nym_connection_map_ s))
    (backend_handler ot_ codec message).
Proof.
  intros Hassoc. unfold backend_handler.
  repeat first
    [ apply preserves_lift
    | apply preserves_ret
    | apply preserves_bind; [| intros ?] ].
  - apply preserves_for_each. intros nymID. apply Hassoc.
  - unfold backend_switch.
    destruct (RPCResponse.type _);
      try (destruct (first_status_is _ _));
      repeat first
        [ apply preserves_lift
        | apply preserves_ret
        | apply (preserves_of_keeps nym_connection_map_ Q),
            update_clients_keeps_nyms
        | apply (preserves_of_keeps nym_connection_map_ Q),
            update_servers_keeps_nyms
        | apply preserves_for_each; intros ?; apply Hassoc
        | apply preserves_bind; [| intros ?] ].
  - apply (preserves_of_keeps nym_connection_map_ Q).
    apply backend_queue_task_keeps_nyms.
Qed.

(** A property of the nym table that [associate_nym] preserves holds
    throughout a run. *)
Lemma run_preserves_nyms (Q : gmap string Data → Prop) (ot_ : Native)
    (codec : Proto) (calls : list callback) :
  (∀ connection nymID,
     preserves (fun s => Q (nym_connection_map_ s))
       (associate_nym connection nymID)) →
  preserves (fun s => Q (nym_connection_map_ s)) (run ot_ codec calls).
Proof.
  intros Hassoc. unfold run. apply preserves_for_each.
  intros [message | message | message | message]; simpl.
  - apply (preserves_of_keeps nym_connection_map_ Q).
    apply internal_handler_keeps_nyms.
  - apply preserves_bind; [| intros; apply preserves_ret].
    by apply backend_handler_preserves_nyms.
  - apply (preserves_of_keeps nym_connection_map_ Q).
    apply frontend_handler_keeps_nyms.
  - apply (preserves_of_keeps nym_connection_map_ Q).
    apply push_handler_keeps_nyms.
Qed.

(** X3. No run of the agent removes or redirects a nym association: a nym
    that is associated with a connection is still associated with that
    connection after any sequence of callbacks, whatever they carry. *)
Theorem run_nym_association_permanent (ot_ : Native) (codec : Proto)
    (calls : list callback) (n : string) (held : Data) (a : Agent) :
  nym_connection_map_ a !! n = Some held →
  nym_connection_map_ (state_of (run ot_ codec calls a)) !! n = Some held.
Proof.
  apply (run_preserves_nyms (fun table => table !! n = Some held)).
  intros connection nymID. apply associate_nym_permanent.
Qed.

(** X4. The empty nym is never associated: if the nym table has no entry
    for the empty string, it has none after any run. *)
Theorem run_never_associates_empty_nym (ot_ : Native) (codec : Proto)
    (calls : list callback) (a : Agent) :
  nym_connection_map_ a !! "" = None →
  nym_connection_map_ (state_of (run ot_ codec calls a)) !! "" = None.
Proof.
  apply (run_preserves_nyms (fun table => table !! "" = None)).
  intros connection nymID s Hs. rewrite associate_nym_run. simpl.
  destruct (empty nymID) eqn:E; [done |].
  rewrite emplace_lookup_ne; [done |].
  intros ->. by vm_compute in E.
Qed.

(** X5. The task table holds only complete entries: if every entry has a
    non-empty task id, connection and nym, as in the empty table the agent
    starts with, the same is true after any run. *)
Theorem run_task_table_wf (ot_ : Native) (codec : Proto)
    (calls : list callback) (a : Agent) :
  task_table_wf (task_connection_map_ a) →
  task_table_wf (task_connection_map_ (state_of (run ot_ codec calls a))).
Proof.
  revert a.
  change (preserves (fun s => task_table_wf (task_connection_map_ s))
            (run ot_ codec calls)).
  unfold run. apply preserves_for_each.
  intros [message | message | message | message]; simpl.
  - apply internal_handler_wf.
  - apply preserves_bind; [| intros; apply preserves_ret].
    apply backend_handler_wf.
  - apply frontend_handler_wf.
  - apply push_handler_wf.
Qed.

Lemma run_nym_association_permanent_witness :
  nym_connection_map_
    (state_of
       (run
          (Sample.engine
             (Sample.response RPCCOMMAND_CREATENYM [RPCRESPONSE_SUCCESS]
                ["N1"] []))
          (Sample.codec (Sample.command RPCCOMMAND_CREATENYM) Sample.no_push)
          [backend_callback_ ["D"; ""; "command"; "D"];
           push_callback_ ["N1"; "hello"; "inst-0"]]
          (with_nyms {[ "N1" := "C" ]} Sample.agent)))
    !! "N1" = Some "C".
Proof.
  apply (run_nym_association_permanent _ _ _ "N1" "C"
           (with_nyms {[ "N1" := "C" ]} Sample.agent)).
  reflexivity.
Defined.

Lemma run_never_associates_empty_nym_witness :
  nym_connection_map_
    (state_of
       (run
          (Sample.engine
             (Sample.response RPCCOMMAND_CREATENYM [RPCRESPONSE_SUCCESS]
                [""; "N1"] []))
          (Sample.codec (Sample.command RPCCOMMAND_CREATENYM) Sample.no_push)
          [backend_callback_ Sample.worker_request]
          Sample.agent))
    !! "" = None.
Proof.
  apply (run_never_associates_empty_nym _ _ _ Sample.agent).
  reflexivity.
Defined.

Lemma run_task_table_wf_witness :
  task_table_wf
    (task_connection_map_
       (state_of
          (run
             (Sample.engine
                (Sample.response RPCCOMMAND_SENDPAYMENT [RPCRESPONSE_QUEUED]
                   [] ["T1"]))
             (Sample.codec (Sample.command RPCCOMMAND_SENDPAYMENT)
                Sample.task_done)
             [frontend_callback_ Sample.one_frame_request;
              backend_callback_ Sample.worker_request]
             Sample.agent))).
Proof.
  apply (run_task_table_wf _ _ _ Sample.agent).
  apply map_Forall_empty.
Defined.

(** ** The push bridge, continued *)

Lemma delete_emplace_absent {V} (k : string) (v : V) (m : gmap string V) :
  m !! k = None → delete k (emplace k v m) = m.
Proof.
  intros H. rewrite (emplace_absent _ _ _ H).
  rewrite delete_insert_eq. by apply delete_id.
Qed.

(** A one-frame push for a task that is in the table. *)
Lemma push_handler_task_present (codec : Proto) (message : zmq.Message)
    (payload : zmq.Frame) (connectionID : Data) (nymID : string)
    (a : Agent) :
  zmq.Body message = [payload] →
  let taskcomplete := RPCPush.taskcomplete (DataToProto_RPCPush codec payload) in
  let taskID := TaskComplete.id taskcomplete in
  task_connection_map_ a !! taskID = Some (connectionID, nymID) →
  nymID ≠ "" →
  push_handler codec message a =
    send_task_push codec connectionID taskID nymID
      (TaskComplete.result taskcomplete)
      (with_tasks (delete taskID (task_connection_map_ a)) a).
Proof.
  intros Hbody taskcomplete taskID Hfound Hn.
  unfold push_handler. rewrite Hbody. simpl.
  unfold process_task_push. rewrite Hbody.
  unfold bind at 1. simpl. unfold bind at 1. unfold gets.
  subst taskID taskcomplete. rewrite Hfound.
  unfold bind at 1. unfold modify.
  unfold bind at 1. unfold lift at 1.
  by rewrite (empty_false _ Hn).
Qed.

Lemma push_handler_task_absent (codec : Proto) (message : zmq.Message)
    (payload : zmq.Frame) (a : Agent) :
  zmq.Body message = [payload] →
  task_connection_map_ a
    !! TaskComplete.id (RPCPush.taskcomplete (DataToProto_RPCPush codec payload))
    = None →
  push_handler codec message a = Returned tt a.
Proof.
  intros Hbody Habsent. unfold push_handler. rewrite Hbody. simpl.
  unfold process_task_push. rewrite Hbody.
  unfold bind at 1. simpl. unfold bind, gets. by rewrite Habsent.
Qed.

(** X6. A queued task is completed towards its connection exactly once:
    after [associate_task] has recorded a task that was not in the table,
    the first one-frame push for that task sends one message to the
    recorded connection and removes the entry, so that the task table is
    as it was before the association, and a second push for the same task
    sends nothing and changes nothing. *)
Theorem task_completion_delivered_once (codec : Proto)
    (message : zmq.Message) (payload : zmq.Frame) (connection : Data)
    (nymID : string) (a : Agent) :
  zmq.Body message = [payload] →
  let taskcomplete := RPCPush.taskcomplete (DataToProto_RPCPush codec payload) in
  let taskID := TaskComplete.id taskcomplete in
  let push := task_push nymID taskID (TaskComplete.result taskcomplete) in
  let sent := [connection; ""; "PUSH"; ProtoAsData_RPCPush codec push] in
  connection ≠ "" → nymID ≠ "" → taskID ≠ "" →
  task_connection_map_ a !! taskID = None →
  Validate codec push = true →
  let a1 := state_of (associate_task connection nymID taskID a) in
  let a2 := with_frontend (frontend_ a ++ [sent]) a in
  task_connection_map_ a1 !! taskID = Some (connection, nymID) ∧
  push_handler codec message a1 = Returned tt a2 ∧
  push_handler codec message a2 = Returned tt a2.
Proof.
  intros Hbody taskcomplete taskID push sent Hc Hn Ht Habsent Hvalid a1 a2.
  assert (Ha1 : a1 = with_tasks
                       (emplace taskID (connection, nymID)
                          (task_connection_map_ a)) a).
  { subst a1. by rewrite associate_task_run. }
  assert (Hfound : task_connection_map_ a1 !! taskID
                   = Some (connection, nymID)).
  { rewrite Ha1. simpl. rewrite emplace_lookup. by rewrite Habsent. }
  split; [exact Hfound |]. split.
  - rewrite (push_handler_task_present codec message payload connection
               nymID a1 Hbody Hfound Hn).
    rewrite (send_task_push_ok codec connection _ nymID _ _ Hc Ht Hn)
      by exact Hvalid.
    rewrite Ha1. simpl.
    rewrite (delete_emplace_absent _ _ _ Habsent).
    subst a2. by destruct a.
  - by apply (push_handler_task_absent codec message payload).
Qed.

Lemma task_completion_delivered_once_witness :
  let codec :=
    Sample.codec (Sample.command RPCCOMMAND_SENDPAYMENT) Sample.task_done in
  let a1 := state_of (associate_task "C" "NymX" "T1" Sample.agent) in
  let a2 := with_frontend [["C"; ""; "PUSH"; "NymX/T1/true"]] Sample.agent in
  task_connection_map_ a1 !! "T1" = Some ("C", "NymX") ∧
  push_handler codec ["completion"] a1 = Returned tt a2 ∧
  push_handler codec ["completion"] a2 = Returned tt a2.
Proof.
  apply (task_completion_delivered_once
           (Sample.codec (Sample.command RPCCOMMAND_SENDPAYMENT)
              Sample.task_done)
           ["completion"] "completion" "C" "NymX" Sample.agent);
    try discriminate; reflexivity.
Defined.

(** X7. A push whose body has neither one nor three frames is dropped: the
    handler returns with the agent unchanged, so nothing is sent and no
    association is touched. *)
Theorem push_handler_drops_other_sizes (codec : Proto)
    (message : zmq.Message) (a : Agent) :
  length (zmq.Body message) ≠ 1%nat →
  length (zmq.Body message) ≠ 3%nat →
  push_handler codec message a = Returned tt a.
Proof.
  intros H1 H3. unfold push_handler.
  rewrite bool_decide_eq_false_2 by (intros E; by apply H1).
  rewrite bool_decide_eq_true_2 by (intros E; by apply H3).
  done.
Qed.

Lemma push_handler_drops_other_sizes_witness :
  push_handler (Sample.codec (Sample.command RPCCOMMAND_ERROR) Sample.task_done)
    ["T1"; "extra"] Sample.waiting_agent =
  Returned tt Sample.waiting_agent.
Proof.
  apply (push_handler_drops_other_sizes _ ["T1"; "extra"]
           Sample.waiting_agent); simpl; lia.
Defined.

(** X8. [instantiate_push] fails only on an empty connection: it aborts
    exactly when the connection is empty, and for any other connection it
    yields a message whose header is that connection alone and whose body
    is the single frame ["PUSH"], so its two closing assertions never
    fire. *)
Theorem instantiate_push_shape (connectionID : Data) :
  (instantiate_push connectionID = Err AssertionFailure ↔
     connectionID = "") ∧
  (connectionID ≠ "" →
     ∃ output, instantiate_push connectionID = Ok output ∧
       zmq.Header output = [connectionID] ∧
       zmq.Body output = ["PUSH"]).
Proof.
  split.
  - split.
    + intros H. destruct (decide (connectionID = "")) as [E | E]; [done |].
      by rewrite (instantiate_push_ok _ E) in H.
    + by intros ->.
  - intros H. exists [connectionID; ""; "PUSH"].
    split; [by apply instantiate_push_ok |].
    unfold zmq.Header, zmq.Body, zmq.hasDivider. simpl.
    by rewrite (empty_false _ H).
Qed.

(** X9. A nym-addressed event reaches the connection the nym was
    associated with, and the association is not used up: after
    [associate_nym] has recorded a new nym for a non-empty connection,
    every push [nymID; payload; instance] sends exactly one message with
    header [connection] and body ["PUSH"; payload; instance], and leaves
    everything else as it was, so a second push is delivered as well. *)
Theorem nym_event_delivered_each_time (codec : Proto) (message : zmq.Message)
    (nymID payload instance : zmq.Frame) (connection : Data) (a : Agent) :
  zmq.Body message = [nymID; payload; instance] →
  nymID ≠ "" → connection ≠ "" →
  nym_connection_map_ a !! nymID = None →
  let sent := [connection; ""; "PUSH"; payload; instance] in
  let a1 := state_of (associate_nym connection nymID a) in
  let a2 := with_frontend (frontend_ a ++ [sent]) a1 in
  let a3 := with_frontend (frontend_ a ++ [sent; sent]) a1 in
  push_handler codec message a1 = Returned tt a2 ∧
  push_handler codec message a2 = Returned tt a3 ∧
  zmq.Header sent = [connection] ∧
  zmq.Body sent = ["PUSH"; payload; instance].
Proof.
  intros Hbody Hn Hc Habsent sent a1 a2 a3.
  assert (Ha1 : a1 = with_nyms (<[nymID := connection]> (nym_connection_map_ a)) a).
  { subst a1. by rewrite (associate_nym_fresh _ _ _ Hn Habsent). }
  assert (Hfound : ∀ s, nym_connection_map_ s !! nymID = Some connection →
            push_handler codec message s =
              Returned tt (with_frontend (frontend_ s ++ [sent]) s)).
  { intros s Hs.
    destruct (push_handler_nym_event codec message nymID payload instance s
                Hbody) as [Hpresent _].
    by apply Hpresent. }
  assert (H1 : nym_connection_map_ a1 !! nymID = Some connection).
  { rewrite Ha1. simpl. apply lookup_insert_eq. }
  split; [| split; [| split]].
  - rewrite (Hfound a1 H1). subst a2. by rewrite Ha1.
  - rewrite (Hfound a2); [| exact H1].
    subst a2 a3. simpl. by rewrite <- app_assoc.
  - unfold sent, zmq.Header, zmq.hasDivider. simpl.
    by rewrite (empty_false _ Hc).
  - unfold sent, zmq.Body, zmq.hasDivider. simpl.
    by rewrite (empty_false _ Hc).
Qed.

Lemma nym_event_delivered_each_time_witness :
  let codec := Sample.codec (Sample.command RPCCOMMAND_ERROR) Sample.no_push in
  let sent := ["C"; ""; "PUSH"; "hello"; "inst-0"] in
  let a1 := state_of (associate_nym "C" "N1" Sample.agent) in
  let a2 := with_frontend [sent] a1 in
  let a3 := with_frontend [sent; sent] a1 in
  push_handler codec ["N1"; "hello"; "inst-0"] a1 = Returned tt a2 ∧
  push_handler codec ["N1"; "hello"; "inst-0"] a2 = Returned tt a3 ∧
  zmq.Header sent = ["C"] ∧
  zmq.Body sent = ["PUSH"; "hello"; "inst-0"].
Proof.
  apply (nym_event_delivered_each_time
           (Sample.codec (Sample.command RPCCOMMAND_ERROR) Sample.no_push)
           ["N1"; "hello"; "inst-0"] "N1" "hello" "inst-0" "C" Sample.agent);
    try discriminate; reflexivity.
Defined.

Lemma send_task_push_rejected (codec : Proto) (connectionID : Data)
    (taskID nymID : string) (result : bool) (a : Agent) :
  connectionID ≠ "" → taskID ≠ "" → nymID ≠ "" →
  Validate codec (task_push nymID taskID result) = false →
  send_task_push codec connectionID taskID nymID result a =
    Aborted AssertionFailure a.
Proof.
  intros Hc Ht Hn Hv. unfold send_task_push, bind, lift.
  rewrite (empty_false _ Hc), (empty_false _ Ht), (empty_false _ Hn). simpl.
  rewrite (instantiate_push_ok _ Hc).
  fold (task_push nymID taskID result). by rewrite Hv.
Qed.

(** X10. The task entry is erased before the push is validated: when the
    protobuf library rejects the push that [send_task_push] builds, the
    handler aborts on its assertion with the entry already removed and
    nothing sent, so the completion of that task is lost. *)
Theorem push_handler_rejected_push_loses_task (codec : Proto)
    (message : zmq.Message) (payload : zmq.Frame) (connectionID : Data)
    (nymID : string) (a : Agent) :
  zmq.Body message = [payload] →
  task_table_wf (task_connection_map_ a) →
  let taskcomplete := RPCPush.taskcomplete (DataToProto_RPCPush codec payload) in
  let taskID := TaskComplete.id taskcomplete in
  task_connection_map_ a !! taskID = Some (connectionID, nymID) →
  Validate codec
    (task_push nymID taskID (TaskComplete.result taskcomplete)) = false →
  let a' := with_tasks (delete taskID (task_connection_map_ a)) a in
  push_handler codec message a = Aborted AssertionFailure a' ∧
  task_connection_map_ a' !! taskID = None ∧
  frontend_ a' = frontend_ a.
Proof.
  intros Hbody Hwf taskcomplete taskID Hfound Hvalid a'.
  destruct (Hwf _ _ Hfound) as (Ht & Hc & Hn). simpl in Hc, Hn.
  split; [| split; [apply lookup_delete_eq | done]].
  rewrite (push_handler_task_present codec message payload connectionID
             nymID a Hbody Hfound Hn).
  by apply send_task_push_rejected.
Qed.

Lemma push_handler_rejected_push_loses_task_witness :
  let codec :=
    {| DataToProto_RPCCommand := fun _ => Sample.command RPCCOMMAND_ERROR;
       DataToProto_RPCPush := fun _ => Sample.task_done;
       ProtoAsData_RPCResponse := fun _ => "response";
       ProtoAsData_RPCPush := fun _ => "push";
       Validate := fun _ => false |} in
  let a' := with_tasks (delete "T1" {[ "T1" := ("C", "NymX") ]}) Sample.agent in
  push_handler codec ["completion"] Sample.waiting_agent =
    Aborted AssertionFailure a' ∧
  task_connection_map_ a' !! "T1" = None ∧
  frontend_ a' = frontend_ Sample.waiting_agent.
Proof.
  apply (push_handler_rejected_push_loses_task
           {| DataToProto_RPCCommand := fun _ => Sample.command RPCCOMMAND_ERROR;
              DataToProto_RPCPush := fun _ => Sample.task_done;
              ProtoAsData_RPCResponse := fun _ => "response";
              ProtoAsData_RPCPush := fun _ => "push";
              Validate := fun _ => false |}
           ["completion"] "completion" "C" "NymX" Sample.waiting_agent).
  - reflexivity.
  - apply map_Forall_singleton. simpl. repeat split; discriminate.
  - reflexivity.
  - reflexivity.
Defined.

(** X11. [associate_nym] does not look at the connection: it records a
    nym for an empty connection as for any other, and every later push
    addressed to that nym makes the handler abort on the assertion of
    [instantiate_push], with nothing sent. *)
Theorem nym_event_for_empty_connection_aborts (codec : Proto)
    (message : zmq.Message) (nymID payload instance : zmq.Frame)
    (a : Agent) :
  zmq.Body message = [nymID; payload; instance] →
  nymID ≠ "" →
  nym_connection_map_ a !! nymID = None →
  let a1 := state_of (associate_nym "" nymID a) in
  nym_connection_map_ a1 !! nymID = Some "" ∧
  push_handler codec message a1 = Aborted AssertionFailure a1.
Proof.
  intros Hbody Hn Habsent a1.
  assert (H1 : nym_connection_map_ a1 !! nymID = Some "").
  { subst a1. rewrite (associate_nym_fresh _ _ _ Hn Habsent). simpl.
    apply lookup_insert_eq. }
  split; [exact H1 |].
  unfold push_handler. rewrite Hbody. simpl.
  unfold bind, lift, gets. simpl. by rewrite H1.
Qed.

Lemma nym_event_for_empty_connection_aborts_witness :
  let a1 := state_of (associate_nym "" "N1" Sample.agent) in
  nym_connection_map_ a1 !! "N1" = Some "" ∧
  push_handler (Sample.codec (Sample.command RPCCOMMAND_ERROR) Sample.no_push)
    ["N1"; "hello"; "inst-0"] a1 = Aborted AssertionFailure a1.
Proof.
  apply (nym_event_for_empty_connection_aborts
           (Sample.codec (Sample.command RPCCOMMAND_ERROR) Sample.no_push)
           ["N1"; "hello"; "inst-0"] "N1" "hello" "inst-0" Sample.agent);
    try discriminate; reflexivity.
Defined.

(** ** The worker handler, continued *)

Ltac keeps_auto :=
  repeat first
    [ keeps_step
    | match goal with
      | |- keeps _ (match ?x with _ => _ end) => destruct x
      end ].

(** X12. A worker request needs two body frames: with fewer the handler
    aborts on its first assertion, before it reads the command, and the
    agent is untouched. *)
Theorem backend_handler_short_body (ot_ : Native) (codec : Proto)
    (message : zmq.Message) (a : Agent) :
  (length (zmq.Body message) ≤ 1)%nat →
  backend_handler ot_ codec message a = Aborted AssertionFailure a.
Proof.
  intros H. unfold backend_handler.
  rewrite bool_decide_eq_false_2 by lia. done.
Qed.

Lemma backend_handler_short_body_witness :
  backend_handler
    (Sample.engine (Sample.response RPCCOMMAND_LISTNYMS [] [] []))
    (Sample.codec (Sample.command RPCCOMMAND_LISTNYMS) Sample.no_push)
    Sample.one_frame_request Sample.agent =
  Aborted AssertionFailure Sample.agent.
Proof.
  apply (backend_handler_short_body _ _ Sample.one_frame_request Sample.agent).
  simpl. lia.
Defined.

(** X13. The worker handler sends nothing itself: whatever the request and
    the engine's answer, and whether it returns or aborts, the messages
    sent on the frontend and on the internal socket are the same after it
    as before, and so is the accepted client key. *)
Theorem backend_handler_never_sends (ot_ : Native) (codec : Proto)
    (message : zmq.Message) (a : Agent) :
  let a' := state_of (backend_handler ot_ codec message a) in
  frontend_ a' = frontend_ a ∧
  internal_ a' = internal_ a ∧
  client_pubkey_ a' = client_pubkey_ a.
Proof.
  intros a'.
  assert (H : keeps (fun s => (frontend_ s, internal_ s, client_pubkey_ s))
                (backend_handler ot_ codec message)).
  { unfold backend_handler, backend_switch, backend_queue_task,
      associate_nym, associate_task, update_clients, update_servers,
      increment_config_value, save_config, schedule_refresh.
    keeps_auto. }
  specialize (H a). simpl in H. fold a' in H.
  by injection H as -> -> ->.
Qed.

Lemma first_status_is_exclusive (code code' : RPCResponseCode)
    (response : RPCResponse.t) :
  code ≠ code' →
  first_status_is code response = true →
  first_status_is code' response = false.
Proof.
  unfold first_status_is. intros Hne.
  destruct (RPCResponse.status response) as [| st sts]; [done |].
  simpl. intros H%bool_decide_eq_true.
  apply bool_decide_eq_false_2. congruence.
Qed.

(** The [switch] touches the configuration and the session counters only
    for an Add*Session response whose first status is SUCCESS. *)
Lemma backend_switch_keeps_sessions (ot_ : Native) (connectionID : Data)
    (command : RPCCommand.t) (response : RPCResponse.t) :
  (RPCResponse.type response ≠ RPCCOMMAND_ADDCLIENTSESSION ∧
   RPCResponse.type response ≠ RPCCOMMAND_ADDSERVERSESSION) ∨
  first_status_is RPCRESPONSE_SUCCESS response = false →
  keeps
    (fun s => (config_ s, settings_file s, clients_ s, servers_ s, refresh_ s))
    (backend_switch ot_ connectionID command response).
Proof.
  intros Hgate. unfold backend_switch, associate_nym.
  destruct (RPCResponse.type response) eqn:Ekind;
    try (destruct Hgate as [[H1 H2] | Hgate]; [done |]; rewrite Hgate);
    keeps_auto.
Qed.

(** X14. The worker handler changes the configuration only for a
    successful Add*Session: unless the response is of kind AddClientSession
    or AddServerSession with first status SUCCESS, the configuration in
    memory, the settings file, both session counters and the scheduled
    refreshes are the same after the handler as before. *)
Theorem backend_handler_config_gate (ot_ : Native) (codec : Proto)
    (message : zmq.Message) (request : zmq.Frame) (a : Agent) :
  zmq.Body message !! 0%nat = Some request →
  let response := RPC ot_ (DataToProto_RPCCommand codec request) in
  (RPCResponse.type response ≠ RPCCOMMAND_ADDCLIENTSESSION ∧
   RPCResponse.type response ≠ RPCCOMMAND_ADDSERVERSESSION) ∨
  first_status_is RPCRESPONSE_SUCCESS response = false →
  let a' := state_of (backend_handler ot_ codec message a) in
  config_ a' = config_ a ∧
  settings_file a' = settings_file a ∧
  clients_ a' = clients_ a ∧
  servers_ a' = servers_ a ∧
  refresh_ a' = refresh_ a.
Proof.
  intros Hrequest response Hgate a'.
  assert (H : keeps
            (fun s =>
               (config_ s, settings_file s, clients_ s, servers_ s,
                refresh_ s))
            (backend_handler ot_ codec message)).
  { unfold backend_handler.
    apply keeps_bind; [keeps_step |]. intros _.
    apply keeps_bind_val; [keeps_step |]. intros s0 request' s0' Hat.
    apply lift_Returned in Hat.
    apply (at_Ok _ _ _ _ Hrequest) in Hat. subst request'.
    apply keeps_bind; [keeps_step |]. intros connectionID.
    apply keeps_bind; [unfold associate_nym; keeps_auto |]. intros _.
    apply keeps_bind; [by apply backend_switch_keeps_sessions |].
    intros taskNymID.
    unfold backend_queue_task, associate_task. keeps_auto. }
  specialize (H a). simpl in H. fold a' in H.
  by injection H as -> -> -> -> ->.
Qed.

Lemma backend_handler_config_gate_witness :
  let a' :=
    state_of
      (backend_handler
         (Sample.engine
            (Sample.response RPCCOMMAND_ADDCLIENTSESSION [RPCRESPONSE_ERROR]
               [] []))
         (Sample.codec (Sample.command RPCCOMMAND_ADDCLIENTSESSION)
            Sample.no_push)
         Sample.worker_request Sample.agent) in
  config_ a' = config_ Sample.agent ∧
  settings_file a' = settings_file Sample.agent ∧
  clients_ a' = clients_ Sample.agent ∧
  servers_ a' = servers_ Sample.agent ∧
  refresh_ a' = refresh_ Sample.agent.
Proof.
  apply (backend_handler_config_gate
           (Sample.engine
              (Sample.response RPCCOMMAND_ADDCLIENTSESSION [RPCRESPONSE_ERROR]
                 [] []))
           (Sample.codec (Sample.command RPCCOMMAND_ADDCLIENTSESSION)
              Sample.no_push)
           Sample.worker_request "command" Sample.agent).
  - reflexivity.
  - right. reflexivity.
Defined.

(** ** Session counters *)

Lemma update_clients_run (v : Z) (a : Agent) :
  get_int CONFIG_SECTION CONFIG_CLIENTS (config_ a) = Ok v →
  let config :=
    pt.write_at (pt.fragments CONFIG_SECTION ++ pt.fragments CONFIG_CLIENTS)
      (pt.put_value_int64 (int64_wrap (v + 1))) (config_ a) in
  let newCount := int64_wrap (clients_ a + 1) in
  update_clients a =
    Returned tt
      (with_refresh
         (refresh_ a ++ [int32_wrap (int32_wrap newCount - 1)])
         (with_clients newCount
            (with_settings_file (Some config) (with_config config a)))).
Proof.
  intros Hv config newCount. unfold update_clients.
  unfold bind at 1. rewrite (increment_config_value_run _ _ _ _ Hv).
  reflexivity.
Qed.

Lemma update_servers_run (v : Z) (a : Agent) :
  get_int CONFIG_SECTION CONFIG_SERVERS (config_ a) = Ok v →
  let config :=
    pt.write_at (pt.fragments CONFIG_SECTION ++ pt.fragments CONFIG_SERVERS)
      (pt.put_value_int64 (int64_wrap (v + 1))) (config_ a) in
  update_servers a =
    Returned tt
      (with_servers (int64_wrap (servers_ a + 1))
         (with_settings_file (Some config) (with_config config a))).
Proof.
  intros Hv config. unfold update_servers.
  unfold bind at 1. rewrite (increment_config_value_run _ _ _ _ Hv).
  reflexivity.
Qed.

Lemma get_int_range (sectionName entryName : string) (config : pt.ptree)
    (v : Z) :
  get_int sectionName entryName config = Ok v → INT64_MIN ≤ v ≤ INT64_MAX.
Proof.
  unfold get_int. intros Hv.
  destruct (pt.get_child sectionName config) as [section |];
    [| discriminate].
  simpl in Hv.
  destruct (pt.get_child entryName section); [| discriminate].
  by apply get_value_int64_range in Hv.
Qed.

(** X15. A successful AddClientSession is counted and persisted before the
    reply: when the response is of kind AddClientSession with first status
    SUCCESS, the persisted [clients] entry holds an integer [v] below the
    64-bit maximum and the counter in memory is a valid [int] index, the
    handler returns its reply, the entry then holds [v + 1] in memory and
    in the settings file, the counter in memory has grown by one, the
    server counter is as it was, and exactly one refresh has been
    scheduled, for the index of the new client, which is the old count. *)
Theorem backend_handler_add_client_session (ot_ : Native) (codec : Proto)
    (message : zmq.Message) (request connectionID : zmq.Frame) (v : Z)
    (a : Agent) :
  zmq.Body message !! 0%nat = Some request →
  zmq.Body message !! 1%nat = Some connectionID →
  let response := RPC ot_ (DataToProto_RPCCommand codec request) in
  RPCResponse.type response = RPCCOMMAND_ADDCLIENTSESSION →
  first_status_is RPCRESPONSE_SUCCESS response = true →
  get_int CONFIG_SECTION CONFIG_CLIENTS (config_ a) = Ok v →
  v < INT64_MAX →
  0 ≤ clients_ a < 2 ^ 31 - 1 →
  ∃ a',
    backend_handler ot_ codec message a =
      Returned
        (zmq.AddFrame (ProtoAsData_RPCResponse codec response)
           (zmq.ReplyFactory message)) a' ∧
    get_int CONFIG_SECTION CONFIG_CLIENTS (config_ a') = Ok (v + 1) ∧
    settings_file a' = Some (config_ a') ∧
    clients_ a' = clients_ a + 1 ∧
    servers_ a' = servers_ a ∧
    refresh_ a' = refresh_ a ++ [clients_ a].
Proof.
  intros H0 H1 response Hkind Hsuccess Hv Hmax Hclients.
  pose proof (get_int_range _ _ _ _ Hv) as Hrange.
  rewrite (backend_handler_start ot_ codec _ _ _ a H0 H1).
  fold response.
  set (a1 := with_nyms _ a).
  assert (Hv1 : get_int CONFIG_SECTION CONFIG_CLIENTS (config_ a1) = Ok v)
    by done.
  assert (Hqueued : first_status_is RPCRESPONSE_QUEUED response = false)
    by (by apply (first_status_is_exclusive RPCRESPONSE_SUCCESS)).
  unfold backend_switch, backend_queue_task.
  rewrite Hkind, Hsuccess, Hqueued.
  unfold bind at 1. unfold bind at 1.
  rewrite (update_clients_run _ _ Hv1). simpl.
  unfold bind, ret.
  assert (Hw64 : int64_wrap (v + 1) = v + 1).
  { apply int64_wrap_small. unfold INT64_MIN, INT64_MAX in *. lia. }
  assert (Hc64 : int64_wrap (clients_ a + 1) = clients_ a + 1).
  { apply int64_wrap_small. unfold INT64_MIN, INT64_MAX. lia. }
  assert (Hc32 : int32_wrap (int32_wrap (clients_ a + 1) - 1) = clients_ a).
  { rewrite (int32_wrap_small (clients_ a + 1)) by lia.
    rewrite int32_wrap_small by lia. lia. }
  rewrite Hw64, Hc64, Hc32.
  eexists. split; [reflexivity |]. simpl.
  split; [| done].
  assert (Hz : INT64_MIN ≤ v + 1 ≤ INT64_MAX)
    by (unfold INT64_MIN, INT64_MAX in *; lia).
  exact (get_int_write_at CONFIG_SECTION CONFIG_CLIENTS v (v + 1) (config_ a)
           Hv Hz).
Qed.

Lemma backend_handler_add_client_session_witness :
  let response :=
    Sample.response RPCCOMMAND_ADDCLIENTSESSION [RPCRESPONSE_SUCCESS] [] [] in
  ∃ a',
    backend_handler (Sample.engine response)
      (Sample.codec (Sample.command RPCCOMMAND_ADDCLIENTSESSION)
         Sample.no_push)
      Sample.worker_request Sample.agent =
      Returned
        (zmq.AddFrame "response" (zmq.ReplyFactory Sample.worker_request)) a' ∧
    get_int CONFIG_SECTION CONFIG_CLIENTS (config_ a') = Ok (2 + 1) ∧
    settings_file a' = Some (config_ a') ∧
    clients_ a' = clients_ Sample.agent + 1 ∧
    servers_ a' = servers_ Sample.agent ∧
    refresh_ a' = refresh_ Sample.agent ++ [clients_ Sample.agent].
Proof.
  intros response.
  apply (backend_handler_add_client_session (Sample.engine response)
           (Sample.codec (Sample.command RPCCOMMAND_ADDCLIENTSESSION)
              Sample.no_push)
           Sample.worker_request "command" "C" 2 Sample.agent);
    try reflexivity.
  simpl. lia.
Defined.

(** X16. A successful AddServerSession is counted and persisted, and
    schedules nothing: when the response is of kind AddServerSession with
    first status SUCCESS and the persisted [servers] entry holds an integer
    [v] below the 64-bit maximum, the handler returns its reply, the entry
    then holds [v + 1] in memory and in the settings file, the server
    counter in memory has been incremented, and the client counter and the
    scheduled refreshes are as they were. *)
Theorem backend_handler_add_server_session (ot_ : Native) (codec : Proto)
    (message : zmq.Message) (request connectionID : zmq.Frame) (v : Z)
    (a : Agent) :
  zmq.Body message !! 0%nat = Some request →
  zmq.Body message !! 1%nat = Some connectionID →
  let response := RPC ot_ (DataToProto_RPCCommand codec request) in
  RPCResponse.type response = RPCCOMMAND_ADDSERVERSESSION →
  first_status_is RPCRESPONSE_SUCCESS response = true →
  get_int CONFIG_SECTION CONFIG_SERVERS (config_ a) = Ok v →
  v < INT64_MAX →
  ∃ a',
    backend_handler ot_ codec message a =
      Returned
        (zmq.AddFrame (ProtoAsData_RPCResponse codec response)
           (zmq.ReplyFactory message)) a' ∧
    get_int CONFIG_SECTION CONFIG_SERVERS (config_ a') = Ok (v + 1) ∧
    settings_file a' = Some (config_ a') ∧
    servers_ a' = int64_wrap (servers_ a + 1) ∧
    clients_ a' = clients_ a ∧
    refresh_ a' = refresh_ a.
Proof.
  intros H0 H1 response Hkind Hsuccess Hv Hmax.
  pose proof (get_int_range _ _ _ _ Hv) as Hrange.
  rewrite (backend_handler_start ot_ codec _ _ _ a H0 H1).
  fold response.
  set (a1 := with_nyms _ a).
  assert (Hv1 : get_int CONFIG_SECTION CONFIG_SERVERS (config_ a1) = Ok v)
    by done.
  assert (Hqueued : first_status_is RPCRESPONSE_QUEUED response = false)
    by (by apply (first_status_is_exclusive RPCRESPONSE_SUCCESS)).
  unfold backend_switch, backend_queue_task.
  rewrite Hkind, Hsuccess, Hqueued.
  unfold bind at 1. unfold bind at 1.
  rewrite (update_servers_run _ _ Hv1). simpl.
  unfold bind, ret.
  assert (Hw64 : int64_wrap (v + 1) = v + 1).
  { apply int64_wrap_small. unfold INT64_MIN, INT64_MAX in *. lia. }
  rewrite Hw64.
  eexists. split; [reflexivity |]. simpl.
  split; [| done].
  assert (Hz : INT64_MIN ≤ v + 1 ≤ INT64_MAX)
    by (unfold INT64_MIN, INT64_MAX in *; lia).
  exact (get_int_write_at CONFIG_SECTION CONFIG_SERVERS v (v + 1) (config_ a)
           Hv Hz).
Qed.

Lemma backend_handler_add_server_session_witness :
  let response :=
    Sample.response RPCCOMMAND_ADDSERVERSESSION [RPCRESPONSE_SUCCESS] [] [] in
  ∃ a',
    backend_handler (Sample.engine response)
      (Sample.codec (Sample.command RPCCOMMAND_ADDSERVERSESSION)
         Sample.no_push)
      Sample.worker_request Sample.agent =
      Returned
        (zmq.AddFrame "response" (zmq.ReplyFactory Sample.worker_request)) a' ∧
    get_int CONFIG_SECTION CONFIG_SERVERS (config_ a') = Ok (1 + 1) ∧
    settings_file a' = Some (config_ a') ∧
    servers_ a' = int64_wrap (servers_ Sample.agent + 1) ∧
    clients_ a' = clients_ Sample.agent ∧
    refresh_ a' = refresh_ Sample.agent.
Proof.
  intros response.
  apply (backend_handler_add_server_session (Sample.engine response)
           (Sample.codec (Sample.command RPCCOMMAND_ADDSERVERSESSION)
              Sample.no_push)
           Sample.worker_request "command" "C" 1 Sample.agent);
    reflexivity.
Defined.

(** X17. A queued payment from an odd session stops the worker: for a
    response of kind SendPayment and a command whose session number is odd,
    the handler aborts on the assertion of [session_to_client_index] when
    the first status is QUEUED, after the command's nyms have been
    associated and with the task table untouched; when the first status is
    not QUEUED the session number is not looked at and the handler returns
    its reply. *)
Theorem backend_handler_send_payment_odd_session (ot_ : Native)
    (codec : Proto) (message : zmq.Message) (request connectionID : zmq.Frame)
    (a : Agent) :
  zmq.Body message !! 0%nat = Some request →
  zmq.Body message !! 1%nat = Some connectionID →
  let command := DataToProto_RPCCommand codec request in
  let response := RPC ot_ command in
  RPCResponse.type response = RPCCOMMAND_SENDPAYMENT →
  RPCCommand.session command mod 2 ≠ 0 →
  let a1 :=
    with_nyms
      (associate_all connectionID (RPCCommand.associatenym command)
         (nym_connection_map_ a)) a in
  (first_status_is RPCRESPONSE_QUEUED response = true →
     backend_handler ot_ codec message a = Aborted AssertionFailure a1) ∧
  (first_status_is RPCRESPONSE_QUEUED response = false →
     backend_handler ot_ codec message a =
       Returned
         (zmq.AddFrame (ProtoAsData_RPCResponse codec response)
            (zmq.ReplyFactory message)) a1) ∧
  task_connection_map_ a1 = task_connection_map_ a.
Proof.
  intros H0 H1 command response Hkind Hodd a1.
  pose proof (backend_handler_start ot_ codec _ _ _ a H0 H1) as Hstart.
  simpl in Hstart. fold command response a1 in Hstart.
  split; [| split; [| done]].
  - intros Hqueued. rewrite Hstart.
    unfold backend_switch. rewrite Hkind, Hqueued.
    unfold session_to_client_index.
    rewrite bool_decide_eq_false_2 by congruence.
    done.
  - intros Hqueued. rewrite Hstart.
    unfold backend_switch, backend_queue_task. rewrite Hkind, Hqueued.
    done.
Qed.

Lemma backend_handler_send_payment_odd_session_witness :
  let command :=
    {| RPCCommand.type := RPCCOMMAND_SENDPAYMENT;
       RPCCommand.session := 3;
       RPCCommand.owner := "";
       RPCCommand.associatenym := ["N1"];
       RPCCommand.sendpayment := {| SendPayment.sourceaccount := "A" |};
       RPCCommand.acceptpendingpayment := [] |} in
  let response :=
    Sample.response RPCCOMMAND_SENDPAYMENT [RPCRESPONSE_QUEUED] [] ["T1"] in
  backend_handler (Sample.engine response) (Sample.codec command Sample.no_push)
    Sample.worker_request Sample.agent =
  Aborted AssertionFailure (with_nyms {[ "N1" := "C" ]} Sample.agent).
Proof.
  intros command response.
  destruct (backend_handler_send_payment_odd_session (Sample.engine response)
              (Sample.codec command Sample.no_push)
              Sample.worker_request "command" "C" Sample.agent)
    as (Hqueued & _ & _).
  - reflexivity.
  - reflexivity.
  - reflexivity.
  - discriminate.
  - rewrite Hqueued; reflexivity.
Defined.

(** ** The configuration store, continued *)

Lemma increment_config_value_unreadable (sectionName entryName : string)
    (e : error) (a : Agent) :
  get_int sectionName entryName (config_ a) = Err e →
  increment_config_value sectionName entryName a = Aborted e a.
Proof.
  intros Hread. unfold get_int in Hread.
  unfold increment_config_value, bind, gets, lift.
  destruct (pt.get_child sectionName (config_ a)) as [section | e1];
    simpl in Hread; [| congruence].
  destruct (pt.get_child entryName section) as [entry | e2];
    simpl in Hread; [| congruence].
  by rewrite Hread.
Qed.

(** X18. An increment that cannot read its entry changes nothing: when the
    section or the key is missing, or the text of the entry is not read as
    a 64-bit integer (an optional sign and decimal digits, white space
    allowed on either side), [increment_config_value] aborts with the error
    of the failed read ([ptree_bad_path] or [ptree_bad_data]) and leaves
    the agent as it was, so the settings file is not rewritten;
    [update_clients] and [update_servers] then abort as well, before they
    count the session in memory or schedule a refresh. *)
Theorem increment_config_value_failed_read (e : error) (a : Agent) :
  (∀ sectionName entryName,
     get_int sectionName entryName (config_ a) = Err e →
     increment_config_value sectionName entryName a = Aborted e a) ∧
  (get_int CONFIG_SECTION CONFIG_CLIENTS (config_ a) = Err e →
     update_clients a = Aborted e a) ∧
  (get_int CONFIG_SECTION CONFIG_SERVERS (config_ a) = Err e →
     update_servers a = Aborted e a).
Proof.
  split; [| split].
  - intros sectionName entryName. apply increment_config_value_unreadable.
  - intros Hread. unfold update_clients. unfold bind at 1.
    by rewrite (increment_config_value_unreadable _ _ _ _ Hread).
  - intros Hread. unfold update_servers. unfold bind at 1.
    by rewrite (increment_config_value_unreadable _ _ _ _ Hread).
Qed.

Lemma increment_config_value_failed_read_witness :
  let missing_key :=
    with_config (pt.Node "" [("otagent", pt.Node "" [])]) Sample.agent in
  let no_number :=
    with_config
      (pt.Node "" [("otagent", pt.Node "" [("servers", pt.Node "many" [])])])
      Sample.agent in
  update_clients missing_key = Aborted ptree_bad_path missing_key ∧
  update_servers no_number = Aborted ptree_bad_data no_number.
Proof.
  split.
  - apply (increment_config_value_failed_read ptree_bad_path). reflexivity.
  - apply (increment_config_value_failed_read ptree_bad_data). reflexivity.
Defined.

(** An entry written with a plus sign or with white space around it is
    read all the same: the count goes from 5 to 6, the text of the entry
    becomes ["6"], and the file is rewritten. *)
Example update_clients_signed_entry :
  let entry (text : string) :=
    pt.Node "" [("otagent", pt.Node "" [("clients", pt.Node text [])])] in
  let started (text : string) := with_config (entry text) Sample.agent in
  let updated (text : string) := state_of (update_clients (started text)) in
  (∀ text, text ∈ ["+5"; " 5 "; "05"] →
     update_clients (started text) = Returned tt (updated text) ∧
     config_ (updated text) = entry "6" ∧
     settings_file (updated text) = Some (entry "6")) ∧
  update_clients (started "5x") = Aborted ptree_bad_data (started "5x").
Proof.
  split; [| reflexivity].
  intros text Htext. repeat (apply elem_of_cons in Htext as [-> | Htext]);
    [by vm_compute .. | by apply elem_of_nil in Htext].
Qed.

Lemma find_update_first_ne (key key' : string) (f : pt.ptree → pt.ptree)
    (cs : list (string * pt.ptree)) :
  key ≠ key' →
  pt.find key' (pt.update_first key f cs) = pt.find key' cs.
Proof.
  intros Hne. induction cs as [| [k c] cs IH]; simpl; [done |].
  destruct (decide (k = key)) as [-> | Hk].
  - rewrite (bool_decide_eq_true_2 _ eq_refl). simpl.
    by rewrite !(bool_decide_eq_false_2 _ Hne).
  - rewrite (bool_decide_eq_false_2 _ Hk). simpl.
    by rewrite IH.
Qed.

(** Writing through one path leaves the text of the node at every other
    path as it was, when the write keeps the children of its node. *)
Lemma walk_path_write_at_other (p q : list string) (f : pt.ptree → pt.ptree)
    (t : pt.ptree) :
  (∀ n, pt.children (f n) = pt.children n) →
  q ≠ p →
  pt.data <$> pt.walk_path q (pt.write_at p f t) =
  pt.data <$> pt.walk_path q t.
Proof.
  intros Hf. revert q t.
  induction p as [| k p IH]; intros q t Hne.
  - destruct q as [| k q]; [done |]. simpl. by rewrite Hf.
  - destruct q as [| k' q]; [done |]. simpl.
    destruct (decide (k = k')) as [<- | Hk].
    + rewrite find_update_first.
      destruct (pt.find k (pt.children t)) as [c |]; simpl; [| done].
      apply IH. congruence.
    + by rewrite (find_update_first_ne _ _ _ _ Hk).
Qed.

Lemma get_int_walk (sectionName entryName : string) (config : pt.ptree) :
  get_int sectionName entryName config =
    match pt.walk_path (pt.fragments sectionName ++ pt.fragments entryName)
            config with
    | Some entry => pt.get_value_int64 entry
    | None => Err ptree_bad_path
    end.
Proof.
  unfold get_int, pt.get_child. rewrite walk_path_app.
  destruct (pt.walk_path (pt.fragments sectionName) config) as [section |];
    simpl; [| done].
  by destruct (pt.walk_path (pt.fragments entryName) section).
Qed.

Lemma get_value_int64_data (n n' : pt.ptree) :
  pt.data n = pt.data n' → pt.get_value_int64 n = pt.get_value_int64 n'.
Proof. unfold pt.get_value_int64. by intros ->. Qed.

(** X19. An increment touches one entry only: whatever it does to its own
    entry, every entry that lies at another path of the configuration
    reads the same after [increment_config_value] as before, be it an
    integer, a missing entry or unreadable text. *)
Theorem increment_config_value_other_entries (sectionName entryName : string)
    (otherSection otherEntry : string) (a : Agent) :
  pt.fragments otherSection ++ pt.fragments otherEntry ≠
    pt.fragments sectionName ++ pt.fragments entryName →
  get_int otherSection otherEntry
    (config_ (state_of (increment_config_value sectionName entryName a))) =
  get_int otherSection otherEntry (config_ a).
Proof.
  intros Hne.
  destruct (get_int sectionName entryName (config_ a)) as [v | e] eqn:Hread.
  - rewrite (increment_config_value_run _ _ _ _ Hread). simpl.
    rewrite !get_int_walk.
    pose proof (walk_path_write_at_other
                  (pt.fragments sectionName ++ pt.fragments entryName)
                  (pt.fragments otherSection ++ pt.fragments otherEntry)
                  (pt.put_value_int64 (int64_wrap (v + 1))) (config_ a)
                  (fun n => eq_refl) Hne) as Hdata.
    destruct (pt.walk_path _ (pt.write_at _ _ _)) as [n' |],
             (pt.walk_path _ (config_ a)) as [n |];
      simpl in Hdata; try done.
    apply get_value_int64_data. congruence.
  - by rewrite (increment_config_value_unreadable _ _ _ _ Hread).
Qed.

Lemma increment_config_value_other_entries_witness :
  get_int CONFIG_SECTION CONFIG_SERVERS
    (config_
       (state_of
          (increment_config_value CONFIG_SECTION CONFIG_CLIENTS Sample.agent)))
  = get_int CONFIG_SECTION CONFIG_SERVERS (config_ Sample.agent).
Proof.
  apply (increment_config_value_other_entries CONFIG_SECTION CONFIG_CLIENTS
           CONFIG_SECTION CONFIG_SERVERS Sample.agent).
  discriminate.
Defined.

(** ** Authentication, continued *)

(** X20. The handler accepts one key only: whenever it returns a reply,
    the code of the reply is Success exactly when the mechanism is Curve
    and the encoding of the first credential equals the configured client
    key, and it is AuthFailure in every other case; credentials after the
    first play no part. *)
Theorem zap_handler_accepts_only_the_client_key (ot_ : Native) (a : Agent)
    (request : zap.Request) (reply : zap.Reply) :
  zap_handler ot_ a request = Ok reply →
  (zap.Code reply = zap.Success ↔
     zap.Mechanism_ request = zap.Curve ∧
     ∃ pubkey, zap.Credentials request !! 0%nat = Some pubkey ∧
               Z85Encode ot_ pubkey = client_pubkey_ a) ∧
  (zap.Code reply ≠ zap.Success → zap.Code reply = zap.AuthFailure) ∧
  (∀ more,
     zap_handler ot_ a
       {| zap.Mechanism_ := zap.Mechanism_ request;
          zap.Credentials := zap.Credentials request ++ more |} =
     Ok {| zap.request :=
             {| zap.Mechanism_ := zap.Mechanism_ request;
                zap.Credentials := zap.Credentials request ++ more |};
           zap.Code := zap.Code reply;
           zap.StatusText := zap.StatusText reply |}).
Proof.
  intros Hreply.
  destruct (zap.Credentials request !! 0%nat) as [pubkey |] eqn:Hfirst.
  2: { unfold zap_handler, zmq.at_ in Hreply. by rewrite Hfirst in Hreply. }
  destruct (zap_handler_with_credential ot_ a request pubkey Hfirst)
    as (reply' & Hrun & Hcode).
  assert (reply' = reply) as -> by congruence.
  assert (Hmore : ∀ more,
            zap_handler ot_ a
              {| zap.Mechanism_ := zap.Mechanism_ request;
                 zap.Credentials := zap.Credentials request ++ more |} =
            Ok {| zap.request :=
                    {| zap.Mechanism_ := zap.Mechanism_ request;
                       zap.Credentials := zap.Credentials request ++ more |};
                  zap.Code := zap.Code reply;
                  zap.StatusText := zap.StatusText reply |}).
  { intros more.
    assert (Hfirst' : (zap.Credentials request ++ more) !! 0%nat
                      = Some pubkey) by (by apply lookup_app_l_Some).
    unfold zap_handler, zmq.at_ in *. simpl.
    rewrite Hfirst in Hrun. rewrite Hfirst'. simpl in *.
    repeat case_bool_decide; injection Hrun as <-; done. }
  split; [| split; [| exact Hmore]].
  - split.
    + intros H. rewrite H in Hcode.
      repeat case_bool_decide; try discriminate. eauto.
    + intros (Hm & pubkey' & Hp & Hkey).
      assert (pubkey' = pubkey) as -> by congruence.
      rewrite !bool_decide_eq_true_2 in Hcode by done. congruence.
  - intros Hno. repeat case_bool_decide; congruence.
Qed.

Lemma zap_handler_accepts_only_the_client_key_witness :
  let ot_ := Sample.engine (Sample.response RPCCOMMAND_ERROR [] [] []) in
  let request :=
    {| zap.Mechanism_ := zap.Curve; zap.Credentials := ["client-key"] |} in
  let reply :=
    {| zap.request := request; zap.Code := zap.Success;
       zap.StatusText := "OK" |} in
  (zap.Code reply = zap.Success ↔
     zap.Mechanism_ request = zap.Curve ∧
     ∃ pubkey, zap.Credentials request !! 0%nat = Some pubkey ∧
               Z85Encode ot_ pubkey = client_pubkey_ Sample.agent) ∧
  (zap.Code reply ≠ zap.Success → zap.Code reply = zap.AuthFailure) ∧
  (∀ more,
     zap_handler ot_ Sample.agent
       {| zap.Mechanism_ := zap.Mechanism_ request;
          zap.Credentials := zap.Credentials request ++ more |} =
     Ok {| zap.request :=
             {| zap.Mechanism_ := zap.Mechanism_ request;
                zap.Credentials := zap.Credentials request ++ more |};
           zap.Code := zap.Code reply;
           zap.StatusText := zap.StatusText reply |}).
Proof.
  intros ot_ request reply.
  apply (zap_handler_accepts_only_the_client_key ot_ Sample.agent request
           reply).
  reflexivity.
Defined.

(** ** The frontend handler, continued *)

Lemma frontend_handler_forward (message : zmq.Message) (identity : zmq.Frame)
    (a : Agent) :
  last (zmq.Header message) = Some identity →
  zmq.Body message ≠ [] →
  frontend_handler message a =
    Returned tt
      (with_internal (internal_ a ++ [zmq.AddFrame identity message]) a).
Proof.
  intros Hlast Hnonempty.
  assert (Hne : identity ≠ "").
  { apply (Header_frames_nonempty message).
    rewrite last_lookup in Hlast. by eapply list_elem_of_lookup_2. }
  assert (Hsize : (0 < length (zmq.Header message))%nat).
  { destruct (zmq.Header message); [discriminate | simpl; lia]. }
  unfold frontend_handler.
  rewrite bool_decide_eq_true_2 by done.
  unfold bind at 1. simpl.
  rewrite bool_decide_eq_false_2
    by (destruct (zmq.Body message); [done | simpl; lia]).
  unfold bind, lift, zmq.at_. rewrite last_lookup in Hlast.
  replace (length (zmq.Header message) - 1)%nat
    with (pred (length (zmq.Header message))) by lia.
  rewrite Hlast.
  rewrite bool_decide_eq_true_2 by (by apply length_pos).
  done.
Qed.

(** X21. The frontend handler insists on a routing header and touches the
    internal socket only: on a message without a header it aborts on its
    first assertion, whatever the body; on every other message it returns,
    and the agent is then as before or has exactly one more message on the
    internal socket, the incoming one followed by the last header frame. *)
Theorem frontend_handler_outcome (message : zmq.Message) (a : Agent) :
  (zmq.Header message = [] →
     frontend_handler message a = Aborted AssertionFailure a) ∧
  (zmq.Header message ≠ [] →
     ∃ identity, last (zmq.Header message) = Some identity ∧
       frontend_handler message a =
         Returned tt
           (if bool_decide (zmq.Body message = []) then a
            else with_internal
                   (internal_ a ++ [zmq.AddFrame identity message]) a)).
Proof.
  split.
  - intros H. unfold frontend_handler. by rewrite H.
  - intros H.
    destruct (last (zmq.Header message)) as [identity |] eqn:Hlast.
    2: { apply last_None in Hlast. done. }
    exists identity. split; [done |].
    case_bool_decide as Hbody.
    + unfold frontend_handler.
      rewrite bool_decide_eq_true_2
        by (destruct (zmq.Header message); [done | simpl; lia]).
      unfold bind at 1. simpl. by rewrite Hbody.
    + by apply frontend_handler_forward.
Qed.

(** ** From the request to the push *)

Lemma backend_switch_keeps_frontend (ot_ : Native) (connectionID : Data)
    (command : RPCCommand.t) (response : RPCResponse.t) :
  keeps frontend_ (backend_switch ot_ connectionID command response).
Proof.
  unfold backend_switch, associate_nym, update_clients, update_servers,
    increment_config_value, save_config, schedule_refresh.
  keeps_auto.
Qed.

(** X22. The completion of a queued task goes back to the connection the
    request came from.  Take a request with a one-frame body from the
    connection [identity], answered by the engine with first status QUEUED
    and a task entry whose id is new to the task table, the [switch]
    giving a non-empty taskNymID.  Then the run of the frontend handler on
    the request, the worker handler on the forwarded message and the push
    handler on the completion of that task returns; it has sent exactly one
    message on the frontend, whose header is [identity] and which carries
    the push for the taskNymID, and the task table is again as it was. *)
Theorem queued_task_round_trip (ot_ : Native) (codec : Proto)
    (request_message push_message : zmq.Message)
    (command_frame identity payload : zmq.Frame) (task : RPCTask.t)
    (taskNymID : string) (a a2 : Agent) :
  last (zmq.Header request_message) = Some identity →
  zmq.Body request_message = [command_frame] →
  let forwarded := zmq.AddFrame identity request_message in
  let command := DataToProto_RPCCommand codec command_frame in
  let response := RPC ot_ command in
  let a0 := with_internal (internal_ a ++ [forwarded]) a in
  let a1 :=
    with_nyms
      (associate_all identity (RPCCommand.associatenym command)
         (nym_connection_map_ a0)) a0 in
  first_status_is RPCRESPONSE_QUEUED response = true →
  RPCResponse.task response !! 0%nat = Some task →
  backend_switch ot_ identity command response a1 = Returned taskNymID a2 →
  taskNymID ≠ "" →
  RPCTask.id task ≠ "" →
  task_connection_map_ a !! RPCTask.id task = None →
  zmq.Body push_message = [payload] →
  let taskcomplete := RPCPush.taskcomplete (DataToProto_RPCPush codec payload) in
  TaskComplete.id taskcomplete = RPCTask.id task →
  let push :=
    task_push taskNymID (RPCTask.id task) (TaskComplete.result taskcomplete) in
  Validate codec push = true →
  let sent := [identity; ""; "PUSH"; ProtoAsData_RPCPush codec push] in
  let outcome :=
    run ot_ codec
      [frontend_callback_ request_message;
       backend_callback_ forwarded;
       push_callback_ push_message] a in
  value_of outcome = Some tt ∧
  frontend_ (state_of outcome) = frontend_ a ++ [sent] ∧
  zmq.Header sent = [identity] ∧
  task_connection_map_ (state_of outcome) = task_connection_map_ a.
Proof.
  intros Hlast Hbody forwarded command response a0 a1 Hqueued Htask Hswitch
    Hnym Hid Hnew Hpush taskcomplete Hsame push Hvalid sent outcome.
  assert (Hidentity : identity ≠ "").
  { apply (Header_frames_nonempty request_message).
    rewrite last_lookup in Hlast. by eapply list_elem_of_lookup_2. }
  assert (Hdiv : zmq.hasDivider request_message = true).
  { apply Header_nonempty_hasDivider.
    destruct (zmq.Header request_message); [discriminate | simpl; lia]. }
  assert (Hfront : frontend_handler request_message a = Returned tt a0).
  { apply frontend_handler_forward; [done |]. by rewrite Hbody. }
  assert (Hfwd : zmq.Body forwarded = [command_frame; identity]).
  { unfold forwarded. by rewrite Body_AddFrame, Hbody. }
  assert (H0 : zmq.Body forwarded !! 0%nat = Some command_frame)
    by (by rewrite Hfwd).
  assert (H1 : zmq.Body forwarded !! 1%nat = Some identity)
    by (by rewrite Hfwd).
  destruct (backend_handler_queued ot_ codec forwarded command_frame identity
              a0 a2 taskNymID task H0 H1 Hqueued Htask Hswitch)
    as [Hback Htasks2].
  simpl in Htasks2.
  set (a3 := with_tasks
               (emplace (RPCTask.id task) (identity, taskNymID)
                  (task_connection_map_ a2)) a2).
  assert (Hback' : backend_handler ot_ codec forwarded a0 =
            Returned
              (zmq.AddFrame (ProtoAsData_RPCResponse codec response)
                 (zmq.ReplyFactory forwarded)) a3).
  { rewrite Hback. unfold bind.
    by rewrite (associate_task_run _ _ _ _ Hidentity Hnym Hid). }
  assert (Hnew2 : task_connection_map_ a2 !! RPCTask.id task = None)
    by (by rewrite Htasks2).
  assert (Hfound : task_connection_map_ a3
            !! TaskComplete.id
                 (RPCPush.taskcomplete (DataToProto_RPCPush codec payload))
            = Some (identity, taskNymID)).
  { fold taskcomplete. rewrite Hsame. unfold a3. simpl.
    rewrite emplace_lookup. by rewrite Hnew2. }
  assert (Hpushed : push_handler codec push_message a3 =
            Returned tt (with_frontend (frontend_ a2 ++ [sent]) a2)).
  { rewrite (push_handler_task_present codec push_message payload identity
               taskNymID a3 Hpush Hfound Hnym).
    fold taskcomplete. rewrite Hsame.
    rewrite (send_task_push_ok codec identity _ taskNymID _ _ Hidentity Hid
               Hnym) by exact Hvalid.
    unfold a3. simpl.
    rewrite (delete_emplace_absent _ _ _ Hnew2).
    by destruct a2. }
  assert (Hfrontend2 : frontend_ a2 = frontend_ a).
  { pose proof (backend_switch_keeps_frontend ot_ identity command response
                  a1) as Hk.
    by rewrite Hswitch in Hk. }
  assert (Hrun : outcome =
            Returned tt (with_frontend (frontend_ a2 ++ [sent]) a2)).
  { unfold outcome, run. simpl.
    unfold bind at 1. rewrite Hfront.
    unfold bind at 1. unfold bind at 1. rewrite Hback'.
    unfold ret at 1.
    unfold bind at 1. by rewrite Hpushed. }
  rewrite Hrun. simpl. rewrite Hfrontend2.
  split; [done |]. split; [done |]. split; [| done].
  unfold sent, zmq.Header, zmq.hasDivider. simpl.
  by rewrite (empty_false _ Hidentity).
Qed.

Lemma queued_task_round_trip_witness :
  let response :=
    Sample.response RPCCOMMAND_SENDPAYMENT [RPCRESPONSE_QUEUED] [] ["T1"] in
  let outcome :=
    run (Sample.engine response)
      (Sample.codec (Sample.command RPCCOMMAND_SENDPAYMENT) Sample.task_done)
      [frontend_callback_ Sample.one_frame_request;
       backend_callback_ (zmq.AddFrame "C" Sample.one_frame_request);
       push_callback_ ["completion"]] Sample.agent in
  value_of outcome = Some tt ∧
  frontend_ (state_of outcome) =
    frontend_ Sample.agent ++ [["C"; ""; "PUSH"; "NymX/T1/true"]] ∧
  zmq.Header ["C"; ""; "PUSH"; "NymX/T1/true"] = ["C"] ∧
  task_connection_map_ (state_of outcome) = task_connection_map_ Sample.agent.
Proof.
  intros response.
  apply (queued_task_round_trip (Sample.engine response)
           (Sample.codec (Sample.command RPCCOMMAND_SENDPAYMENT)
              Sample.task_done)
           Sample.one_frame_request ["completion"] "command" "C" "completion"
           (RPCTask.Build_t "T1") "NymX" Sample.agent
           (with_internal [zmq.AddFrame "C" Sample.one_frame_request]
              Sample.agent));
    try discriminate; reflexivity.
Defined.

(** ** The worker endpoints *)

Lemma to_uint_nonnil (i : nat) : Nat.to_uint i ≠ Decimal.Nil.
Proof.
  intros E. pose proof (DecimalNat.Unsigned.of_to i) as H.
  rewrite E in H. simpl in H. subst i. discriminate E.
Qed.

Lemma to_string_inj (i j : nat) : to_string i = to_string j → i = j.
Proof.
  unfold to_string. intros H.
  apply DecimalNat.Unsigned.to_uint_inj.
  apply (f_equal NilZero.uint_of_string) in H.
  rewrite !NilZero.usu in H by apply to_uint_nonnil.
  by injection H.
Qed.

Lemma append_inv_head (p x y : string) : p +:+ x = p +:+ y → x = y.
Proof. induction p as [| c p IH]; simpl; [done |]. intros [= H]. auto. Qed.

(** The loop appends the endpoints of the indices [i], [i + 1], ... in
    turn. *)
Lemma endpoint_loop_seq (prefix : string) (i remaining : nat)
    (output : list string) :
  endpoint_loop prefix i remaining output =
    output ++ ((fun j => prefix +:+ to_string j) <$> seq i remaining).
Proof.
  revert i output. induction remaining as [| n IH]; intros i output; simpl.
  - by rewrite app_nil_r.
  - rewrite IH. by rewrite <- app_assoc.
Qed.

(** X23. There is always a worker: [backend_endpoint_generator] returns
    max(hardware_concurrency, 1) endpoints, hence at least one even when
    the hardware reports 0 threads, and the endpoint at position [i] is
    the prefix ["inproc://opentxs/agent/backend/"] followed by the decimal
    digits of [i]. *)
Theorem backend_endpoint_generator_endpoints (hardware_concurrency : nat) :
  let output := backend_endpoint_generator hardware_concurrency in
  length output = Nat.max hardware_concurrency 1 ∧
  output ≠ [] ∧
  ∀ i, (i < Nat.max hardware_concurrency 1)%nat →
       output !! i = Some ("inproc://opentxs/agent/backend/" +:+ to_string i).
Proof.
  intros output. unfold output, backend_endpoint_generator.
  rewrite endpoint_loop_seq. simpl app.
  assert (Hlen : length ((fun j => "inproc://opentxs/agent/backend/"
                                     +:+ to_string j)
                         <$> seq 0 (Nat.max hardware_concurrency 1))
                 = Nat.max hardware_concurrency 1).
  { by rewrite length_fmap, length_seq. }
  split; [exact Hlen |]. split.
  - intros E. rewrite E in Hlen. simpl in Hlen. lia.
  - intros i Hi. rewrite list_lookup_fmap.
    by rewrite (lookup_seq_lt _ _ _ Hi).
Qed.

(** X24. No two workers share an endpoint: the endpoints that
    [backend_endpoint_generator] returns are pairwise distinct. *)
Theorem backend_endpoint_generator_distinct (hardware_concurrency : nat) :
  NoDup (backend_endpoint_generator hardware_concurrency).
Proof.
  unfold backend_endpoint_generator. rewrite endpoint_loop_seq. simpl app.
  apply NoDup_fmap_2; [| apply NoDup_seq].
  intros i j H. apply to_string_inj. by apply append_inv_head in H.
Qed.

(** ** The session classifier, continued *)

Lemma session_to_client_index_Ok (session index : Z) :
  0 ≤ session ≤ UINT32_MAX →
  session_to_client_index session = Ok index →
  session = 2 * index ∧ 0 ≤ index < 2 ^ 31.
Proof.
  unfold UINT32_MAX, session_to_client_index. intros Hrange.
  case_bool_decide as Heven; [| discriminate]. simpl.
  assert (Hdiv : 0 ≤ session / 2 < 2 ^ 31).
  { split; [apply Z.div_pos; lia | apply Z.div_lt_upper_bound; lia]. }
  rewrite int32_wrap_small by lia. intros [= <-].
  split; [| done].
  pose proof (Z.div_mod session 2 ltac:(lia)). lia.
Qed.

(** X25. Client sessions map to client indices one to one: when
    [session_to_client_index] returns the same index for two 32-bit
    session numbers, the two are the same session, namely twice the index;
    and an index it returns is never negative and fits an [int]. *)
Theorem session_to_client_index_injective (session session' index : Z) :
  0 ≤ session ≤ UINT32_MAX →
  0 ≤ session' ≤ UINT32_MAX →
  session_to_client_index session = Ok index →
  session_to_client_index session' = Ok index →
  session = session' ∧ session = 2 * index ∧ 0 ≤ index < 2 ^ 31.
Proof.
  intros Hs Hs' H H'.
  apply session_to_client_index_Ok in H as [-> Hi]; [| done].
  apply session_to_client_index_Ok in H' as [-> _]; [| done].
  done.
Qed.

Lemma session_to_client_index_injective_witness :
  4 = 4 ∧ 4 = 2 * 2 ∧ 0 ≤ 2 < 2 ^ 31.
Proof.
  apply (session_to_client_index_injective 4 4 2);
    first [ reflexivity | unfold UINT32_MAX; lia ].
Defined.

(** ** The reply *)

Lemma Header_Body_delimited (header rest : list string) :
  Forall (fun f => f ≠ "") header →
  zmq.Header (header ++ "" :: rest) = header ∧
  zmq.Body (header ++ "" :: rest) = rest.
Proof.
  intros Hne.
  assert (Hfind : zmq.findDivider (header ++ "" :: rest) = length header).
  { induction Hne as [| f header Hf _ IH]; [done |]. simpl.
    by rewrite (empty_false _ Hf), IH. }
  assert (Hdiv : zmq.hasDivider (header ++ "" :: rest) = true).
  { unfold zmq.hasDivider. rewrite existsb_app. simpl.
    by rewrite orb_true_r. }
  unfold zmq.Header, zmq.Body. rewrite Hdiv, Hfind. split.
  - by rewrite take_app_length.
  - rewrite <- Nat.add_1_r, <- drop_drop. by rewrite drop_app_length.
Qed.

(** A reply that the worker handler returns is the serialized response
    added to the reply message of the request. *)
Lemma backend_handler_Returned (ot_ : Native) (codec : Proto)
    (message : zmq.Message) (request : zmq.Frame) (reply : zmq.Message)
    (a a' : Agent) :
  zmq.Body message !! 0%nat = Some request →
  backend_handler ot_ codec message a = Returned reply a' →
  reply =
    zmq.AddFrame
      (ProtoAsData_RPCResponse codec
         (RPC ot_ (DataToProto_RPCCommand codec request)))
      (zmq.ReplyFactory message).
Proof.
  intros H0. unfold backend_handler, zmq.at_. rewrite H0.
  unfold bind, lift, ret.
  repeat match goal with
         | |- context [match ?c with _ => _ end] => destruct c; try discriminate
         end.
  congruence.
Qed.

(** X26. The reply finds its way back: when the worker handler returns a
    reply to a request that has a routing header, the reply has the same
    routing header as the request and a body of exactly one frame, the
    serialized response of the engine; and [internal_handler] sends that
    reply, unchanged, as one message on the frontend. *)
Theorem backend_handler_reply_routing (ot_ : Native) (codec : Proto)
    (message : zmq.Message) (request : zmq.Frame) (reply : zmq.Message)
    (a a' : Agent) :
  zmq.Header message ≠ [] →
  zmq.Body message !! 0%nat = Some request →
  backend_handler ot_ codec message a = Returned reply a' →
  zmq.Header reply = zmq.Header message ∧
  zmq.Body reply =
    [ProtoAsData_RPCResponse codec
       (RPC ot_ (DataToProto_RPCCommand codec request))] ∧
  internal_handler reply a' =
    Returned tt (with_frontend (frontend_ a' ++ [reply]) a').
Proof.
  intros Hheader H0 Hrun.
  rewrite (backend_handler_Returned _ _ _ _ _ _ _ H0 Hrun).
  unfold zmq.ReplyFactory, zmq.AddFrame.
  rewrite bool_decide_eq_true_2
    by (destruct (zmq.Header message); [done | simpl; lia]).
  rewrite <- app_assoc. simpl.
  assert (Hne : Forall (fun f => f ≠ "") (zmq.Header message)).
  { apply Forall_forall. intros f Hf.
    by apply (Header_frames_nonempty message). }
  destruct (Header_Body_delimited (zmq.Header message)
              [ProtoAsData_RPCResponse codec
                 (RPC ot_ (DataToProto_RPCCommand codec request))] Hne)
    as [Hh Hb].
  by rewrite Hh, Hb.
Qed.

Lemma backend_handler_reply_routing_witness :
  let response := Sample.response RPCCOMMAND_LISTNYMS [RPCRESPONSE_SUCCESS] [] [] in
  let reply := ["C"; ""; "response"] in
  zmq.Header reply = zmq.Header Sample.worker_request ∧
  zmq.Body reply = ["response"] ∧
  internal_handler reply Sample.agent =
    Returned tt
      (with_frontend (frontend_ Sample.agent ++ [reply]) Sample.agent).
Proof.
  intros response reply.
  apply (backend_handler_reply_routing (Sample.engine response)
           (Sample.codec (Sample.command RPCCOMMAND_LISTNYMS) Sample.no_push)
           Sample.worker_request "command" reply Sample.agent Sample.agent).
  - discriminate.
  - reflexivity.
  - reflexivity.
Defined.

(** ** The nyms of a command *)

Lemma backend_switch_nym_permanent (ot_ : Native) (connectionID : Data)
    (command : RPCCommand.t) (response : RPCResponse.t) (n : string)
    (held : Data) :
  preserves (fun s => nym_connection_map_ s !! n = Some held)
    (backend_switch ot_ connectionID command response).
Proof.
  pose (Q := fun table : gmap string Data => table !! n = Some held).
  unfold backend_switch.
  destruct (RPCResponse.type _);
    try (destruct (first_status_is _ _));
    repeat first
      [ apply preserves_lift
      | apply preserves_ret
      | apply (preserves_of_keeps nym_connection_map_ Q),
          update_clients_keeps_nyms
      | apply (preserves_of_keeps nym_connection_map_ Q),
          update_servers_keeps_nyms
      | apply preserves_for_each; intros ?; apply associate_nym_permanent
      | apply preserves_bind; [| intros ?] ].
Qed.

(** X27. The nyms a command lists are associated before the engine is
    asked and whatever it answers: for a worker request with two body
    frames, every non-empty nym of the command's associatenym list is in
    the nym table after the handler, returned or aborted, with the
    connection of the request unless the nym already had one. *)
Theorem backend_handler_associates_command_nyms (ot_ : Native)
    (codec : Proto) (message : zmq.Message) (request connectionID : zmq.Frame)
    (nymID : string) (a : Agent) :
  zmq.Body message !! 0%nat = Some request →
  zmq.Body message !! 1%nat = Some connectionID →
  nymID ∈ RPCCommand.associatenym (DataToProto_RPCCommand codec request) →
  nymID ≠ "" →
  nym_connection_map_ (state_of (backend_handler ot_ codec message a))
    !! nymID =
  Some (default connectionID (nym_connection_map_ a !! nymID)).
Proof.
  intros H0 H1 Hin Hne.
  rewrite (backend_handler_start ot_ codec _ _ _ a H0 H1).
  set (held := default connectionID (nym_connection_map_ a !! nymID)).
  match goal with
  | |- nym_connection_map_ (state_of (?c ?a1)) !! _ = _ =>
      assert (Hp : preserves
                (fun st => nym_connection_map_ st !! nymID = Some held) c);
      [| apply (Hp a1) ]
  end.
  - apply preserves_bind; [apply backend_switch_nym_permanent |].
    intros taskNymID. apply preserves_bind; [| intros; apply preserves_ret].
    apply (preserves_of_keeps nym_connection_map_
             (fun table => table !! nymID = Some held)).
    apply backend_queue_task_keeps_nyms.
  - simpl. by apply associate_all_lookup.
Qed.

Lemma backend_handler_associates_command_nyms_witness :
  let command :=
    {| RPCCommand.type := RPCCOMMAND_SENDPAYMENT;
       RPCCommand.session := 3;
       RPCCommand.owner := "";
       RPCCommand.associatenym := ["N1"];
       RPCCommand.sendpayment := {| SendPayment.sourceaccount := "A" |};
       RPCCommand.acceptpendingpayment := [] |} in
  let response :=
    Sample.response RPCCOMMAND_SENDPAYMENT [RPCRESPONSE_QUEUED] [] ["T1"] in
  nym_connection_map_
    (state_of
       (backend_handler (Sample.engine response)
          (Sample.codec command Sample.no_push)
          Sample.worker_request Sample.agent))
    !! "N1" =
  Some (default "C" (nym_connection_map_ Sample.agent !! "N1")).
Proof.
  intros command response.
  apply (backend_handler_associates_command_nyms (Sample.engine response)
           (Sample.codec command Sample.no_push)
           Sample.worker_request "command" "C" "N1" Sample.agent).
  - reflexivity.
  - reflexivity.
  - apply list_elem_of_here.
  - discriminate.
Defined.

(** X28. A queued task nobody owns stops the worker: when the response is
    of a kind other than RegisterNym, IssueUnitDefinition, CreateAccount,
    CreateCompatibleAccount, SendPayment and AcceptPendingPayments, its
    first status is QUEUED and it carries a task entry, the handler calls
    [associate_task] with an empty nym and aborts on that assertion; no
    reply is returned and the task table is as it was. *)
Theorem backend_handler_unowned_queued_task_aborts (ot_ : Native)
    (codec : Proto) (message : zmq.Message) (request connectionID : zmq.Frame)
    (a : Agent) :
  zmq.Body message !! 0%nat = Some request →
  zmq.Body message !! 1%nat = Some connectionID →
  let response := RPC ot_ (DataToProto_RPCCommand codec request) in
  owns_task (RPCResponse.type response) = false →
  first_status_is RPCRESPONSE_QUEUED response = true →
  RPCResponse.task response ≠ [] →
  value_of (backend_handler ot_ codec message a) = None ∧
  ∃ a', backend_handler ot_ codec message a = Aborted AssertionFailure a' ∧
        task_connection_map_ a' = task_connection_map_ a.
Proof.
  intros H0 H1 response Hkind Hqueued Htask.
  destruct (backend_handler_other_kinds_queued_aborts ot_ codec message
              request connectionID a H0 H1 Hkind Hqueued Htask)
    as (a' & Hrun & Htasks).
  split; [by rewrite Hrun | eauto].
Qed.

Lemma backend_handler_unowned_queued_task_aborts_witness :
  let response :=
    Sample.response RPCCOMMAND_CREATENYM [RPCRESPONSE_QUEUED] ["N1"] ["T1"] in
  let outcome :=
    backend_handler (Sample.engine response)
      (Sample.codec (Sample.command RPCCOMMAND_CREATENYM) Sample.no_push)
      Sample.worker_request Sample.agent in
  value_of outcome = None ∧
  ∃ a', outcome = Aborted AssertionFailure a' ∧
        task_connection_map_ a' = task_connection_map_ Sample.agent.
Proof.
  intros response.
  apply (backend_handler_unowned_queued_task_aborts (Sample.engine response)
           (Sample.codec (Sample.command RPCCOMMAND_CREATENYM) Sample.no_push)
           Sample.worker_request "command" "C" Sample.agent).
  - reflexivity.
  - reflexivity.
  - reflexivity.
  - reflexivity.
  - discriminate.
Defined.
